(** * Obsidian heading-property script: a shallow embedding of [add_headings.py]

    The development follows the script top-down:
    - [Py]: the Python [str] operations the script calls
      ([strip], [startswith], [splitlines], [split], [upper], ...);
    - [Re]: the regular expressions of the rule tables and [re.search];
    - [Yaml]: the values the YAML loader hands back and the library boundary
      ([yaml.safe_load], [yaml.dump], [fnmatch.fnmatch]);
    - [Fs]: the vault on disk, as the listing the walker enumerates;
    - [HeadingProcessor]: the methods of the class of the same name;
    - [MiniYaml]: a small concrete YAML codec used to run the model;
    - the properties of the specification, one section per component. *)

From Stdlib Require Import List NArith ZArith Bool String Ascii Lia Arith.
From Stdlib Require Import Permutation Sorted.
Import ListNotations.

Set Warnings "-register-all".

(* ================================================================== *)
(** * Python strings *)
(* ================================================================== *)

Module Py.

(** A Python [str] is a sequence of Unicode code points. *)
Definition char := N.
Definition str := list char.

(** ASCII literals. *)
Definition lit (s : string) : str :=
  map N_of_ascii (list_ascii_of_string s).

Definition TAB : char := 9%N.
Definition LF : char := 10%N.
Definition CR : char := 13%N.
Definition SP : char := 32%N.
Definition BACKSLASH : char := 92%N.

Fixpoint str_eqb (a b : str) : bool :=
  match a, b with
  | [], [] => true
  | x :: a', y :: b' => N.eqb x y && str_eqb a' b'
  | _, _ => false
  end.

(** [str.isspace] on one code point: the table of CPython's
    [_PyUnicode_IsWhitespace]. *)
Definition isspace (c : char) : bool :=
  ((9 <=? c) && (c <=? 13) || (28 <=? c) && (c <=? 32)
   || (c =? 133) || (c =? 160) || (c =? 5760)
   || (8192 <=? c) && (c <=? 8202)
   || (c =? 8232) || (c =? 8233) || (c =? 8239) || (c =? 8287)
   || (c =? 12288))%N.

(** Line boundaries of [str.splitlines]. *)
Definition is_linebreak (c : char) : bool :=
  ((10 <=? c) && (c <=? 13) || (28 <=? c) && (c <=? 30)
   || (c =? 133) || (c =? 8232) || (c =? 8233))%N.

Fixpoint lstrip (s : str) : str :=
  match s with
  | [] => []
  | c :: s' => if isspace c then lstrip s' else s
  end.

Definition rstrip (s : str) : str := rev (lstrip (rev s)).

(** [s.strip()] *)
Definition strip (s : str) : str := rstrip (lstrip s).

(** [s.startswith(p)] *)
Fixpoint startswith (p s : str) : bool :=
  match p, s with
  | [], _ => true
  | x :: p', y :: s' => N.eqb x y && startswith p' s'
  | _ :: _, [] => false
  end.

(** [s.endswith(p)] *)
Definition endswith (p s : str) : bool := startswith (rev p) (rev s).

(** [sub in s] *)
Fixpoint contains (sub s : str) : bool :=
  startswith sub s ||
  match s with
  | [] => false
  | _ :: s' => contains sub s'
  end.

(** [s.replace(a, b)] for one-character [a] and [b]. *)
Definition replace_char (a b : char) (s : str) : str :=
  map (fun c => if N.eqb c a then b else c) s.

(** [sep.join(parts)] *)
Fixpoint join (sep : str) (parts : list str) : str :=
  match parts with
  | [] => []
  | [p] => p
  | p :: rest => p ++ sep ++ join sep rest
  end.

(** [s.splitlines(keepends=True)]; [cur] is the line being read, reversed.
    A carriage return directly followed by a line feed is one boundary. *)
Fixpoint splitlines_from (cur : str) (s : str) : list str :=
  match s with
  | [] => match cur with [] => [] | _ => [rev cur] end
  | c :: s' =>
      if N.eqb c CR then
        match s' with
        | d :: s'' =>
            if N.eqb d LF then rev (LF :: CR :: cur) :: splitlines_from [] s''
            else rev (CR :: cur) :: splitlines_from [] s'
        | [] => [rev (CR :: cur)]
        end
      else if is_linebreak c then rev (c :: cur) :: splitlines_from [] s'
      else splitlines_from (c :: cur) s'
  end.

Definition splitlines (s : str) : list str := splitlines_from [] s.

(** [s.split()]: maximal runs of non-whitespace. *)
Fixpoint split_from (cur : str) (s : str) : list str :=
  match s with
  | [] => match cur with [] => [] | _ => [rev cur] end
  | c :: s' =>
      if isspace c then
        match cur with
        | [] => split_from [] s'
        | _ => rev cur :: split_from [] s'
        end
      else split_from (c :: cur) s'
  end.

Definition split (s : str) : list str := split_from [] s.

(** Case mapping.  The model maps the ASCII letters and leaves every other
    code point alone; the cased letters outside ASCII are not modelled. *)
Definition is_upper_ascii (c : char) : bool := ((65 <=? c) && (c <=? 90))%N.
Definition is_lower_ascii (c : char) : bool := ((97 <=? c) && (c <=? 122))%N.
Definition is_digit_ascii (c : char) : bool := ((48 <=? c) && (c <=? 57))%N.

Definition lower_char (c : char) : char :=
  if is_upper_ascii c then (c + 32)%N else c.
Definition upper_char (c : char) : char :=
  if is_lower_ascii c then (c - 32)%N else c.

Definition lower (s : str) : str := map lower_char s.
Definition upper (s : str) : str := map upper_char s.

(** [s.capitalize()] *)
Definition capitalize (s : str) : str :=
  match s with
  | [] => []
  | c :: s' => upper_char c :: lower s'
  end.

(** [s.rfind(c)] for a one-character [c]; [None] stands for -1. *)
Fixpoint rfind (c : char) (s : str) : option nat :=
  match s with
  | [] => None
  | x :: s' =>
      match rfind c s' with
      | Some i => Some (S i)
      | None => if N.eqb x c then Some 0 else None
      end
  end.

(** Lexicographic comparison of strings by code point, [a < b]. *)
Fixpoint str_ltb (a b : str) : bool :=
  match a, b with
  | _, [] => false
  | [], _ :: _ => true
  | x :: a', y :: b' => N.ltb x y || (N.eqb x y && str_ltb a' b')
  end.

(** [s.split(sep)] for a one-character [sep]: the pieces between the
    separators, empty ones included. *)
Fixpoint split_on (sep : char) (cur : str) (s : str) : list str :=
  match s with
  | [] => [rev cur]
  | c :: s' =>
      if N.eqb c sep then rev cur :: split_on sep [] s'
      else split_on sep (c :: cur) s'
  end.

(** A text of ASCII characters. *)
Definition is_ascii (s : str) : bool := forallb (fun c => N.ltb c 128) s.

End Py.

Import Py.

(* ================================================================== *)
(** * Regular expressions of the rule tables *)
(* ================================================================== *)

Module Re.

(** The character classes of the built-in tables: [\d], [\w] and a
    bracket set such as [[/\\]]. *)
Inductive cls : Type :=
| Digit
| Word
| OneOf (l : list char).

(** The fragment of [re] syntax the built-in tables use, as a syntax
    tree: literals, character classes, concatenation, alternation and
    repetition. *)
Inductive regex : Type :=
| Fail
| Eps
| Chr (c : char)
| Cls (k : cls)
| Cat (r1 r2 : regex)
| Alt (r1 r2 : regex)
| Star (r : regex).

(** A table entry: a pattern [re] compiles, or one it rejects
    ([re.search] then raises [re.error]). *)
Inductive pattern : Type :=
| Pat (r : regex)
| BadPattern.

Fixpoint nullable (r : regex) : bool :=
  match r with
  | Fail => false
  | Eps => true
  | Chr _ => false
  | Cls _ => false
  | Cat r1 r2 => nullable r1 && nullable r2
  | Alt r1 r2 => nullable r1 || nullable r2
  | Star _ => true
  end.

Definition cat (r1 r2 : regex) : regex :=
  match r1, r2 with
  | Fail, _ => Fail
  | _, Fail => Fail
  | Eps, _ => r2
  | _, _ => Cat r1 r2
  end.

Definition alt (r1 r2 : regex) : regex :=
  match r1, r2 with
  | Fail, _ => r2
  | _, Fail => r1
  | _, _ => Alt r1 r2
  end.

(** The reference engine below is [re.search] under [re.IGNORECASE] as it
    behaves on ASCII: letters fold within ASCII, [\d] is an ASCII digit,
    [\w] an ASCII letter, digit or underscore.  On [str], [re] also knows
    the digits, letters and case pairs outside ASCII; what the script
    calls is the [re_search] of the library record further down, and the
    two laws stated there tie it to this engine. *)
Definition cls_has (k : cls) (c : char) : bool :=
  match k with
  | Digit => is_digit_ascii c
  | Word =>
      is_digit_ascii c || is_upper_ascii c || is_lower_ascii c
      || N.eqb c 95%N
  | OneOf l => existsb (N.eqb c) l
  end.

(** One character against a literal or a class, case folded. *)
Definition chr_matches_i (c x : char) : bool :=
  N.eqb (lower_char x) (lower_char c).
Definition cls_matches_i (k : cls) (x : char) : bool :=
  cls_has k x || cls_has k (lower_char x) || cls_has k (upper_char x).

(** The residual of [r] after reading [x] (case-insensitive). *)
Fixpoint deriv (x : char) (r : regex) : regex :=
  match r with
  | Fail => Fail
  | Eps => Fail
  | Chr c => if chr_matches_i c x then Eps else Fail
  | Cls k => if cls_matches_i k x then Eps else Fail
  | Cat r1 r2 =>
      alt (cat (deriv x r1) r2) (if nullable r1 then deriv x r2 else Fail)
  | Alt r1 r2 => alt (deriv x r1) (deriv x r2)
  | Star r1 => cat (deriv x r1) (Star r1)
  end.

(** Some prefix of [s] matches [r] (reference engine). *)
Fixpoint match_prefix (r : regex) (s : str) : bool :=
  nullable r ||
  match s with
  | [] => false
  | x :: s' => match_prefix (deriv x r) s'
  end.

(** Some substring of [s] matches [r] (reference engine). *)
Fixpoint search_i (r : regex) (s : str) : bool :=
  match_prefix r s ||
  match s with
  | [] => false
  | _ :: s' => search_i r s'
  end.

(** Builders. *)
Fixpoint chars (s : str) : regex :=
  match s with
  | [] => Eps
  | c :: s' => Cat (Chr c) (chars s')
  end.
Definition text (s : string) : regex := chars (lit s).

Fixpoint rep (n : nat) (r : regex) : regex :=
  match n with
  | O => Eps
  | S n' => Cat r (rep n' r)
  end.

Definition plus (r : regex) : regex := Cat r (Star r).

Fixpoint seq (rs : list regex) : regex :=
  match rs with
  | [] => Eps
  | r :: rs' => Cat r (seq rs')
  end.

(** [\d], [\w] and [[/\\]]. *)
Definition digit : regex := Cls Digit.
Definition word : regex := Cls Word.
Definition sep : regex := Cls (OneOf [47%N; BACKSLASH]).

(** A pattern written with ASCII characters only. *)
Fixpoint ascii (r : regex) : bool :=
  match r with
  | Fail => true
  | Eps => true
  | Chr c => N.ltb c 128
  | Cls (OneOf l) => forallb (fun c => N.ltb c 128) l
  | Cls _ => true
  | Cat r1 r2 => ascii r1 && ascii r2
  | Alt r1 r2 => ascii r1 && ascii r2
  | Star r1 => ascii r1
  end.

(** The strings a pattern matches for the reference engine. *)
Inductive matches_i : regex -> str -> Prop :=
| MEps : matches_i Eps []
| MChr c x : chr_matches_i c x = true -> matches_i (Chr c) [x]
| MCls k x : cls_matches_i k x = true -> matches_i (Cls k) [x]
| MCat r1 r2 s1 s2 :
    matches_i r1 s1 -> matches_i r2 s2 -> matches_i (Cat r1 r2) (s1 ++ s2)
| MAltL r1 r2 s : matches_i r1 s -> matches_i (Alt r1 r2) s
| MAltR r1 r2 s : matches_i r2 s -> matches_i (Alt r1 r2) s
| MStarNil r : matches_i (Star r) []
| MStarCons r s1 s2 :
    matches_i r s1 -> matches_i (Star r) s2 -> matches_i (Star r) (s1 ++ s2).

End Re.

(* ================================================================== *)
(** * YAML values and the library boundary *)
(* ================================================================== *)

Module Yaml.

(** What [yaml.safe_load] can hand back.  A mapping keeps its keys in
    insertion order, as a Python [dict] does.  [VOpaque] stands for the
    values the script never looks into and that support neither [in] nor
    item assignment (floats, timestamps); only their truth value is
    observed.  [VSet] is the value of a [!!set] node; an [!!omap] or
    [!!pairs] node loads as a list of pairs, a [VList] whose items are no
    strings. *)
Inductive pyval : Type :=
| VNone
| VBool (b : bool)
| VInt (z : Z)
| VStr (s : str)
| VList (l : list pyval)
| VDict (d : list (pyval * pyval))
| VOpaque (truth : bool)
| VSet (l : list pyval).

(** Exceptions that reach the handler of [_process_file]. *)
Inductive exn : Type :=
| ReadError      (* [read_text]: OSError, UnicodeDecodeError *)
| LoaderError    (* [yaml.safe_load] raising something that is not a YAMLError *)
| TypeError      (* [in] or item assignment on a value that has none *)
| RegexError     (* [re.search] on a pattern that does not compile *)
| BackupError    (* [shutil.copy2] *)
| WriteError.    (* [write_text] *)

Inductive pyresult (A : Type) : Type :=
| Ok (a : A)
| Raise (e : exn).
Arguments Ok {A} a.
Arguments Raise {A} e.

Definition bind {A B} (m : pyresult A) (k : A -> pyresult B) : pyresult B :=
  match m with
  | Ok a => k a
  | Raise e => Raise e
  end.

(** The three ways [yaml.safe_load] ends. *)
Inductive load_result : Type :=
| Loaded (v : pyval)
| LoadYAMLError
| LoadOtherError.

(** Python truth value. *)
Definition truthy (v : pyval) : bool :=
  match v with
  | VNone => false
  | VBool b => b
  | VInt z => negb (Z.eqb z 0)
  | VStr s => match s with [] => false | _ => true end
  | VList l => match l with [] => false | _ => true end
  | VDict d => match d with [] => false | _ => true end
  | VOpaque t => t
  | VSet l => match l with [] => false | _ => true end
  end.

Definition is_str (k : str) (v : pyval) : bool :=
  match v with
  | VStr s => str_eqb s k
  | _ => false
  end.

(** [k in d] and [d[k] = v] on a [dict], for a string key [k]. *)
Definition dict_has (k : str) (d : list (pyval * pyval)) : bool :=
  existsb (fun kv => is_str k (fst kv)) d.

Fixpoint dict_set (k : str) (v : pyval) (d : list (pyval * pyval))
  : list (pyval * pyval) :=
  match d with
  | [] => [(VStr k, v)]
  | (k', v') :: d' =>
      if is_str k k' then (k', v) :: d' else (k', v') :: dict_set k v d'
  end.

(** [k in v] for a string [k]: key test on a mapping, substring test on a
    string, element test on a sequence or a set, TypeError on the rest. *)
Definition py_in (k : str) (v : pyval) : pyresult bool :=
  match v with
  | VDict d => Ok (dict_has k d)
  | VStr s => Ok (contains k s)
  | VList l => Ok (existsb (is_str k) l)
  | VSet l => Ok (existsb (is_str k) l)
  | _ => Raise TypeError
  end.

(** [v[k] = x] for a string [k]: defined on mappings only. *)
Definition py_setitem (k : str) (x : pyval) (v : pyval) : pyresult pyval :=
  match v with
  | VDict d => Ok (VDict (dict_set k x d))
  | _ => Raise TypeError
  end.

(** A blank document: spaces and line ends only. *)
Definition blank_char (c : char) : bool :=
  N.eqb c SP || N.eqb c LF || N.eqb c CR.
Definition blank (s : str) : bool := forallb blank_char s.

(** The libraries the script calls and does not define:
    - [yaml_safe_load] is [yaml.safe_load];
    - [yaml_dump m] is [yaml.dump(m, default_flow_style=False,
      allow_unicode=True, sort_keys=False)];
    - [fnmatch path pattern] is [fnmatch.fnmatch];
    - [re_search r s] tells whether [re.search(r, s, re.IGNORECASE)]
      finds a match, for a pattern [r] that compiles;
    with the laws the script leans on: a blank document loads as [None];
    on an ASCII text an ASCII pattern finds what the reference engine
    finds; and whatever the reference engine finds, [re] finds (outside
    ASCII [re] knows more digits, letters and case pairs, never fewer). *)
Record library : Type := {
  yaml_safe_load : str -> load_result;
  yaml_dump : pyval -> str;
  fnmatch : str -> str -> bool;
  re_search : Re.regex -> str -> bool;
  safe_load_blank : forall s, blank s = true -> yaml_safe_load s = Loaded VNone;
  re_search_ascii :
    forall r s, Re.ascii r = true -> is_ascii s = true ->
                re_search r s = Re.search_i r s;
  re_search_finds :
    forall r s, Re.search_i r s = true -> re_search r s = true
}.

End Yaml.

Import Yaml.
Notation "x <- m ;; k" := (bind m (fun x => k))
  (at level 100, m at next level, right associativity).

(* ================================================================== *)
(** * The vault on disk *)
(* ================================================================== *)

Module Fs.

(** A file is addressed by the directory it lies in (the names from the
    vault root down) and its name. *)
Definition path : Type := (list str * str)%type.

(** One file of the vault.  [e_data] is its text as stored, or [None] when
    [read_text] cannot produce it (no permission, not UTF-8);
    [e_writable] tells whether the file can be overwritten. *)
Record entry : Type := {
  e_dir : list str;
  e_name : str;
  e_data : option str;
  e_writable : bool
}.

(** The files below the vault root, in the order the directory scan of
    [os.walk] meets them. *)
Definition store : Type := list entry.

Definition e_path (e : entry) : path := (e_dir e, e_name e).

Fixpoint parts_eqb (a b : list str) : bool :=
  match a, b with
  | [], [] => true
  | x :: a', y :: b' => str_eqb x y && parts_eqb a' b'
  | _, _ => false
  end.

Definition path_eqb (p q : path) : bool :=
  parts_eqb (fst p) (fst q) && str_eqb (snd p) (snd q).

Definition lookup (fs : store) (p : path) : option entry :=
  find (fun e => path_eqb (e_path e) p) fs.

(** Text mode reads with universal newlines: a carriage return, alone or
    followed by a line feed, arrives as one line feed. *)
Fixpoint universal_newlines (s : str) : str :=
  match s with
  | [] => []
  | c :: s' =>
      if N.eqb c CR then
        match s' with
        | d :: s'' =>
            if N.eqb d LF then LF :: universal_newlines s''
            else LF :: universal_newlines s'
        | [] => [LF]
        end
      else c :: universal_newlines s'
  end.

(** [file_path.read_text(encoding='utf-8')] *)
Definition read_text (fs : store) (p : path) : pyresult str :=
  match lookup fs p with
  | Some e =>
      match e_data e with
      | Some d => Ok (universal_newlines d)
      | None => Raise ReadError
      end
  | None => Raise ReadError
  end.

Definition set_data (p : path) (d : str) (fs : store) : store :=
  map (fun e =>
         if path_eqb (e_path e) p
         then {| e_dir := e_dir e; e_name := e_name e;
                 e_data := Some d; e_writable := e_writable e |}
         else e) fs.

(** [file_path.write_text(text, encoding='utf-8')] *)
Definition write_text (fs : store) (p : path) (text : str) : pyresult store :=
  match lookup fs p with
  | Some e =>
      if e_writable e then Ok (set_data p text fs) else Raise WriteError
  | None =>
      Ok (fs ++ [{| e_dir := fst p; e_name := snd p;
                    e_data := Some text; e_writable := true |}])
  end.

(** [shutil.copy2(src, dst)]: the stored text and the permissions of
    [src] go to [dst].  The script copies a file it has just read. *)
Definition copy2 (fs : store) (src dst : path) : pyresult store :=
  match lookup fs src with
  | Some e =>
      match e_data e with
      | Some d =>
          match lookup fs dst with
          | Some t =>
              if e_writable t then Ok (set_data dst d fs)
              else Raise BackupError
          | None =>
              Ok (fs ++ [{| e_dir := fst dst; e_name := snd dst;
                            e_data := Some d; e_writable := e_writable e |}])
          end
      | None => Raise BackupError
      end
  | None => Raise BackupError
  end.

(** [PurePath.suffix] and [PurePath.stem] of a file name. *)
Definition suffix (name : str) : str :=
  match rfind 46%N name with
  | Some i =>
      if (0 <? i) && (i <? List.length name - 1) then skipn i name else []
  | None => []
  end.

Definition stem (name : str) : str :=
  match rfind 46%N name with
  | Some i =>
      if (0 <? i) && (i <? List.length name - 1) then firstn i name else name
  | None => name
  end.

(** [file_path.with_suffix(suffix)] on the name. *)
Definition with_suffix (name : str) (suf : str) : str :=
  match suffix name with
  | [] => name ++ suf
  | old => firstn (List.length name - List.length old) name ++ suf
  end.

(** [str(rel_path)] for a path relative to the vault. *)
Definition str_of_parts (parts : list str) : str :=
  match parts with
  | [] => lit "."
  | _ => join (lit "/") parts
  end.

(** Order of [Path] objects under one root: the parts, compared as Python
    compares lists of strings. *)
Fixpoint parts_ltb (a b : list str) : bool :=
  match a, b with
  | _, [] => false
  | [], _ :: _ => true
  | x :: a', y :: b' => str_ltb x y || (str_eqb x y && parts_ltb a' b')
  end.

Definition path_parts (p : path) : list str := fst p ++ [snd p].
Definition path_ltb (p q : path) : bool :=
  parts_ltb (path_parts p) (path_parts q).

(** [sorted(paths)] *)
Fixpoint insert_sorted (p : path) (l : list path) : list path :=
  match l with
  | [] => [p]
  | q :: l' => if path_ltb q p then q :: insert_sorted p l' else p :: l
  end.

Definition sorted (l : list path) : list path :=
  fold_right insert_sorted [] l.

(** The directories on the way from the root to [dir], root first. *)
Fixpoint prefixes (dir : list str) : list (list str) :=
  match dir with
  | [] => [[]]
  | d :: rest => [] :: map (cons d) (prefixes rest)
  end.

End Fs.

Import Fs.

(* ================================================================== *)
(** * Configuration, rule tables, statistics *)
(* ================================================================== *)

(** [class Config] *)
Record Config : Type := {
  vault_path : list str;
  dry_run : bool;
  backup : bool;
  verbose : bool;
  skip_existing : bool;
  title_case : bool;
  preserve_case : bool;
  exclude_dirs : list str;
  include_patterns : list str
}.

(** The class attributes of [HeadingProcessor] that the configuration
    loader may extend. *)
Record tables : Type := {
  PRESERVE_TERMS : list str;
  DAILY_NOTE_PATTERNS : list Re.pattern;
  TEMPLATE_PATTERNS : list Re.pattern
}.

(** [self.stats], a [Counter] with four keys. *)
Record stats : Type := {
  processed : nat;
  skipped_existing : nat;
  skipped_special : nat;
  errors : nat
}.

(** The calls to [self.logger], each with its message.  The handler that
    [_setup_logging] installs decides which of them are printed and in
    which format; it is not part of the model. *)
Inductive event : Type :=
| InfoProcessingVault
| InfoDryRun
| WarnNoFiles
| InfoFound (total : nat)
| DebugProcessing (i total : nat) (p : path)
| InfoSkipped (name : str)
| InfoAdded (name : str) (heading_value : str)
| ErrorProcessing (name : str) (e : exn)
| InfoSummary (n_processed n_existing n_special n_errors total : nat).

(** The files, the counter and the calls made to the logger while a
    processor runs. *)
Record state : Type := {
  st_store : store;
  st_stats : stats;
  st_log : list event
}.

Definition no_stats : stats :=
  {| processed := 0; skipped_existing := 0; skipped_special := 0; errors := 0 |}.

Definition count_processed (c : stats) : stats :=
  {| processed := S (processed c); skipped_existing := skipped_existing c;
     skipped_special := skipped_special c; errors := errors c |}.
Definition count_skipped_existing (c : stats) : stats :=
  {| processed := processed c; skipped_existing := S (skipped_existing c);
     skipped_special := skipped_special c; errors := errors c |}.
Definition count_skipped_special (c : stats) : stats :=
  {| processed := processed c; skipped_existing := skipped_existing c;
     skipped_special := S (skipped_special c); errors := errors c |}.
Definition count_errors (c : stats) : stats :=
  {| processed := processed c; skipped_existing := skipped_existing c;
     skipped_special := skipped_special c; errors := S (errors c) |}.

(** [sum(self.stats.values())] *)
Definition stats_total (c : stats) : nat :=
  processed c + skipped_existing c + skipped_special c + errors c.

(** The state a new processor starts from. *)
Definition fresh_state (fs : store) : state :=
  {| st_store := fs; st_stats := no_stats; st_log := [] |}.

Definition log (ev : event) (s : state) : state :=
  {| st_store := st_store s; st_stats := st_stats s;
     st_log := st_log s ++ [ev] |}.
Definition with_stats (f : stats -> stats) (s : state) : state :=
  {| st_store := st_store s; st_stats := f (st_stats s);
     st_log := st_log s |}.
Definition with_store (fs : store) (s : state) : state :=
  {| st_store := fs; st_stats := st_stats s; st_log := st_log s |}.

(** How the body of [_process_file] ends when it does not raise. *)
Inductive outcome : Type :=
| SkippedExisting
| Processed (heading_value : str).

(* ================================================================== *)
(** * [class HeadingProcessor] *)
(* ================================================================== *)

Module HeadingProcessor.

(** The built-in tables. *)
Definition PRESERVE_TERMS_default : list str :=
  map lit
    ["API"; "APIs"; "UI"; "UX"; "CSS"; "HTML"; "JS"; "JSON"; "YAML";
     "XML"; "SQL"; "HTTP"; "HTTPS"; "URL"; "URI"; "ID"; "iOS"; "macOS";
     "IDE"; "CLI"; "GUI"; "REST"; "GraphQL"; "OAuth"; "JWT"; "PDF";
     "PNG"; "JPG"; "GIF"; "SVG"; "MP3"; "MP4"; "ZIP"; "README"]%string.

(** [00-INBOX[/\\]daily-notes[/\\]],
    [99-ARCHIVE[/\\]\d{4}[/\\]\d{2}-\w+[/\\]],
    [daily-notes[/\\]], [journal[/\\]] *)
Definition DAILY_NOTE_PATTERNS_default : list Re.pattern :=
  [ Re.Pat (Re.seq [Re.text "00-INBOX"; Re.sep; Re.text "daily-notes"; Re.sep]);
    Re.Pat (Re.seq [Re.text "99-ARCHIVE"; Re.sep; Re.rep 4 Re.digit; Re.sep;
                    Re.rep 2 Re.digit; Re.text "-"; Re.plus Re.word; Re.sep]);
    Re.Pat (Re.seq [Re.text "daily-notes"; Re.sep]);
    Re.Pat (Re.seq [Re.text "journal"; Re.sep]) ].

(** [04-TEMPLATES[/\\]], [templates[/\\]], [template[/\\]] *)
Definition TEMPLATE_PATTERNS_default : list Re.pattern :=
  [ Re.Pat (Re.seq [Re.text "04-TEMPLATES"; Re.sep]);
    Re.Pat (Re.seq [Re.text "templates"; Re.sep]);
    Re.Pat (Re.seq [Re.text "template"; Re.sep]) ].

Definition builtin : tables :=
  {| PRESERVE_TERMS := PRESERVE_TERMS_default;
     DAILY_NOTE_PATTERNS := DAILY_NOTE_PATTERNS_default;
     TEMPLATE_PATTERNS := TEMPLATE_PATTERNS_default |}.

(** [x in terms] for a set of strings. *)
Definition mem (x : str) (terms : list str) : bool :=
  existsb (str_eqb x) terms.

(** [re.sub(r'^\d{2}-\s*', '', text)]: two digits and a hyphen at the very
    start go, with the whitespace that follows them. *)
Definition sub_org_prefix (text : str) : str :=
  match text with
  | d1 :: d2 :: h :: rest =>
      if is_digit_ascii d1 && is_digit_ascii d2 && N.eqb h 45%N
      then lstrip rest
      else text
  | _ => text
  end.

(** The first line, counted from [i], that is [---] once stripped. *)
Fixpoint closing_index (i : nat) (lines : list str) : option nat :=
  match lines with
  | [] => None
  | line :: rest =>
      if str_eqb (strip line) (lit "---") then Some i
      else closing_index (S i) rest
  end.

Section Methods.

Variable L : library.
Variable T : tables.
Variable config : Config.

(** [for pattern in patterns: if re.search(pattern, s, re.IGNORECASE):
    return True], then [False]. *)
Fixpoint search_any (patterns : list Re.pattern) (s : str) : pyresult bool :=
  match patterns with
  | [] => Ok false
  | Re.BadPattern :: _ => Raise RegexError
  | Re.Pat r :: rest =>
      if re_search L r s then Ok true else search_any rest s
  end.

(** [_should_exclude_directory] *)
Definition _should_exclude_directory (rel_path : list str) : bool :=
  let rel_str := replace_char BACKSLASH 47%N (str_of_parts rel_path) in
  if mem (lit ".obsidian") rel_path then true
  else existsb (fun exclude_dir => contains exclude_dir rel_str)
               (exclude_dirs config).

(** [os.walk] reaches a directory when neither it nor a directory above it
    was pruned. *)
Definition walk_reaches (dir : list str) : bool :=
  forallb (fun d => negb (_should_exclude_directory d)) (prefixes dir).

(** One file of the scan inside [_find_markdown_files]. *)
Definition scan_file (acc : list path * stats) (e : entry)
  : list path * stats :=
  let file := e_name e in
  if walk_reaches (e_dir e) then
    if endswith (lit ".md") (lower file) then
      if endswith (lit ".canvas") file || endswith (lit ".excalidraw.md") file
      then (fst acc, count_skipped_special (snd acc))
      else (fst acc ++ [e_path e], snd acc)
    else acc
  else acc.

(** [_find_markdown_files] *)
Definition _find_markdown_files (fs : store) (c : stats)
  : list path * stats :=
  let r := fold_left scan_file fs ([], c) in
  (sorted (fst r), snd r).

(** [_match_glob_pattern] *)
Definition _match_glob_pattern (path pattern : str) : bool :=
  fnmatch L path pattern.

(** [_to_title_case] *)
Definition title_word (word : str) : str :=
  if mem (upper word) (PRESERVE_TERMS T) then upper word
  else if mem word (PRESERVE_TERMS T) then word
  else capitalize word.

Definition _to_title_case (text : str) : str :=
  let text := replace_char 95%N SP (replace_char 45%N SP text) in
  let text := sub_org_prefix text in
  let words := split text in
  let result_words := map title_word words in
  join (lit " ") result_words.

(** [_is_daily_note] *)
Definition _is_daily_note (rel_path : str) : pyresult bool :=
  found <- search_any (DAILY_NOTE_PATTERNS T) rel_path ;;
  if found then Ok true
  else Ok (existsb (fun pattern => _match_glob_pattern rel_path pattern)
                   (include_patterns config)).

(** [_is_template_file] *)
Definition _is_template_file (rel_path filename : str) : pyresult bool :=
  found <- search_any (TEMPLATE_PATTERNS T) rel_path ;;
  if found then Ok true
  else Ok (contains (lit "template") (lower filename)).

(** [file_path.parent.name] *)
Definition parent_name (file_path : path) : str :=
  match fst file_path with
  | [] => last (vault_path config) []
  | dir => last dir []
  end.

Definition cased (name : str) : str :=
  if title_case config then _to_title_case name else name.

(** [_generate_heading_value] *)
Definition _generate_heading_value (file_path : path) : pyresult str :=
  let filename := stem (snd file_path) in
  let rel_str :=
    replace_char BACKSLASH 47%N
      (str_of_parts (fst file_path ++ [snd file_path])) in
  daily <- _is_daily_note rel_str ;;
  if daily then Ok (lit "Daily Note " ++ filename)
  else if endswith (lit "-summary") filename then
    let project_name := firstn (List.length filename - 8) filename in
    Ok (cased project_name ++ lit " - Summary")
  else
    template <- _is_template_file rel_str filename ;;
    if template then Ok (lit "Template: " ++ filename)
    else if str_eqb (lower filename) (lit "index") then
      Ok (cased (parent_name file_path) ++ lit " - Index")
    else if str_eqb (upper filename) (lit "README") then
      Ok (cased (parent_name file_path) ++ lit " - README")
    else if title_case config && negb (preserve_case config) then
      Ok (_to_title_case filename)
    else Ok filename.

(** [_parse_frontmatter] *)
Definition _parse_frontmatter (content : str)
  : pyresult (option pyval * str) :=
  match strip content with
  | [] => Ok (None, content)
  | _ =>
    if startswith (lit "---" ++ [LF]) content
       || startswith (lit "---" ++ [CR; LF]) content
    then
      let lines := splitlines content in
      match closing_index 1 (skipn 1 lines) with
      | Some i =>
          let fm_text := List.concat (skipn 1 (firstn i lines)) in
          let body := List.concat (skipn (i + 1) lines) in
          match yaml_safe_load L fm_text with
          | Loaded v => Ok (Some (if truthy v then v else VDict []), body)
          | LoadYAMLError => Ok (None, content)
          | LoadOtherError => Raise LoaderError
          end
      | None => Ok (None, content)
      end
    else Ok (None, content)
  end.

(** [_reconstruct_content] *)
Definition _reconstruct_content (frontmatter : pyval) (body : str) : str :=
  let fm_yaml := yaml_dump L frontmatter in
  let fm_yaml :=
    if endswith [LF] fm_yaml then fm_yaml else fm_yaml ++ [LF] in
  lit "---" ++ [LF] ++ fm_yaml ++ lit "---" ++ [LF] ++ body.

(** [frontmatter and 'heading' in frontmatter] *)
Definition has_heading (frontmatter : option pyval) : pyresult bool :=
  match frontmatter with
  | None => Ok false
  | Some v => if truthy v then py_in (lit "heading") v else Ok false
  end.

(** [if frontmatter is None: frontmatter = {}] and
    [frontmatter['heading'] = heading_value] *)
Definition set_heading (frontmatter : option pyval) (heading_value : str)
  : pyresult pyval :=
  py_setitem (lit "heading") (VStr heading_value)
    match frontmatter with
    | None => VDict []
    | Some v => v
    end.

(** The backup file of [file_path]:
    [file_path.with_suffix(file_path.suffix + '.bak')] *)
Definition backup_path (file_path : path) : path :=
  (fst file_path,
   with_suffix (snd file_path) (suffix (snd file_path) ++ lit ".bak")).

(** The [try] block of [_process_file]: the files as it leaves them, and
    how it ends. *)
Definition try_process_file (fs : store) (file_path : path)
  : store * pyresult outcome :=
  match
    (content <- read_text fs file_path ;;
     parsed <- _parse_frontmatter content ;;
     existing <- has_heading (fst parsed) ;;
     if existing && skip_existing config then Ok None
     else
       heading_value <- _generate_heading_value file_path ;;
       frontmatter <- set_heading (fst parsed) heading_value ;;
       Ok (Some (heading_value,
                 _reconstruct_content frontmatter (snd parsed))))
  with
  | Raise e => (fs, Raise e)
  | Ok None => (fs, Ok SkippedExisting)
  | Ok (Some (heading_value, new_content)) =>
      if negb (dry_run config) then
        match
          (if backup config then copy2 fs file_path (backup_path file_path)
           else Ok fs)
        with
        | Raise e => (fs, Raise e)
        | Ok fs1 =>
            match write_text fs1 file_path new_content with
            | Raise e => (fs1, Raise e)
            | Ok fs2 => (fs2, Ok (Processed heading_value))
            end
        end
      else (fs, Ok (Processed heading_value))
  end.

(** [_process_file]: the [try] block and its [except Exception]. *)
Definition _process_file (s : state) (file_path : path) : state :=
  let name := snd file_path in
  match try_process_file (st_store s) file_path with
  | (fs, Ok SkippedExisting) =>
      with_stats count_skipped_existing
        (log (InfoSkipped name) (with_store fs s))
  | (fs, Ok (Processed heading_value)) =>
      with_stats count_processed
        (log (InfoAdded name heading_value) (with_store fs s))
  | (fs, Raise e) =>
      with_stats count_errors
        (log (ErrorProcessing name e) (with_store fs s))
  end.

(** [_print_summary] *)
Definition _print_summary (s : state) : state :=
  let c := st_stats s in
  log (InfoSummary (processed c) (skipped_existing c) (skipped_special c)
         (errors c) (stats_total c)) s.

(** [for i, file_path in enumerate(md_files, 1)] *)
Fixpoint process_each (i total : nat) (md_files : list path) (s : state)
  : state :=
  match md_files with
  | [] => s
  | file_path :: rest =>
      let s :=
        if verbose config then log (DebugProcessing i total file_path) s
        else s in
      process_each (S i) total rest (_process_file s file_path)
  end.

(** [process_vault] *)
Definition process_vault (s : state) : state :=
  let s := log InfoProcessingVault s in
  let s := if dry_run config then log InfoDryRun s else s in
  let found := _find_markdown_files (st_store s) (st_stats s) in
  let md_files := fst found in
  let s := with_stats (fun _ => snd found) s in
  let total_files := List.length md_files in
  if Nat.eqb total_files 0 then log WarnNoFiles s
  else
    let s := log (InfoFound total_files) s in
    let s := process_each 1 total_files md_files s in
    _print_summary s.

(** [HeadingProcessor(config).process_vault()] on a vault. *)
Definition run (fs : store) : state :=
  process_vault (fresh_state fs).

End Methods.

End HeadingProcessor.

Import HeadingProcessor.

(* ================================================================== *)
(** * [class ConfigFileLoader] *)
(* ================================================================== *)

Module ConfigFileLoader.

(** [argparse.Namespace] as [main] builds it.  A list option that was not
    given is [None]. *)
Record Namespace : Type := {
  arg_vault_path : list str;
  arg_dry_run : bool;
  arg_backup : bool;
  arg_verbose : bool;
  arg_skip_existing : bool;
  arg_title_case : bool;
  arg_preserve_case : bool;
  arg_exclude_dirs : option str;
  arg_include_patterns : option str
}.

(** [[d.strip() for d in text.split(',')]] *)
Definition comma_list (text : str) : list str :=
  map strip (split_on 44%N [] text).

(** [if arg: ... = comma_list(arg)], over the default [[]] of
    [Config.__post_init__]: a missing or empty option leaves the list
    empty. *)
Definition list_option (arg : option str) : list str :=
  match arg with
  | None => []
  | Some [] => []
  | Some text => comma_list text
  end.

(** [merge_config(args, {})]: the configuration of a run without a
    sidecar file ([if file_config:] is not entered). *)
Definition merge_config (args : Namespace) : Config :=
  {| vault_path := arg_vault_path args;
     dry_run := arg_dry_run args;
     backup := arg_backup args;
     verbose := arg_verbose args;
     skip_existing := arg_skip_existing args;
     title_case := arg_title_case args;
     preserve_case := arg_preserve_case args;
     exclude_dirs := list_option (arg_exclude_dirs args);
     include_patterns := list_option (arg_include_patterns args) |}.

End ConfigFileLoader.

(* ================================================================== *)
(** * A small YAML codec *)
(* ================================================================== *)

(** [MiniYaml] runs the model on concrete vaults.  It reads and writes the
    fragment of block-style YAML in which PyYAML's behaviour is plain to
    state: a blank document, and flat mappings whose keys and values are
    simple strings.
    - A value of letters, digits, spaces, [_] and [-] that starts with a
      letter, is no YAML keyword, and fits the 80 columns of a line is
      written bare: [key: value].
    - A value of several such lines is written single-quoted, every line
      break doubled and the continuation lines indented by two spaces,
      which is how PyYAML's emitter lays out a multi-line string.
    - On input, a value may also stand between double quotes, with the
      backslash escapes for a line feed, a backslash and a double quote.
    Whatever lies outside the fragment is refused on input, as YAML
    refuses a line that starts with a tab, and replaced by a comment line
    on output; the tab apart, no statement below rests on those two
    defaults.  Its [re_search] is the reference engine of [Re], which is
    [re] on the ASCII texts the sample vaults hold. *)
Module MiniYaml.

Definition simple_char (c : char) : bool :=
  is_upper_ascii c || is_lower_ascii c || is_digit_ascii c
  || N.eqb c SP || N.eqb c 95%N || N.eqb c 45%N.

Definition keyword (s : str) : bool :=
  mem (lower s)
    (map lit ["true"; "false"; "yes"; "no"; "on"; "off"; "null"; "y"; "n"]%string).

(** A string that YAML reads back as the same string when written bare. *)
Definition simple (s : str) : bool :=
  match s with
  | [] => false
  | c :: _ =>
      (is_upper_ascii c || is_lower_ascii c)
      && forallb simple_char s
      && negb (N.eqb (last s SP) SP)
      && negb (keyword s)
  end.

(** The lines of a text, split at line feeds ([s.split('\n')]). *)
Fixpoint lines_lf (cur : str) (s : str) : list str :=
  match s with
  | [] => [rev cur]
  | c :: s' =>
      if N.eqb c LF then rev cur :: lines_lf [] s'
      else lines_lf (c :: cur) s'
  end.

(** A line of a multi-line value: simple characters, no space at either
    end, short enough never to be folded. *)
Definition simple_line (s : str) : bool :=
  match s with
  | [] => false
  | c :: _ =>
      negb (N.eqb c SP) && forallb simple_char s
      && negb (N.eqb (last s SP) SP) && (List.length s <=? 60)
  end.

Definition dump_value (key value : str) : option str :=
  if simple value && (List.length key + 2 + List.length value <=? 80) then
    Some value
  else
    match lines_lf [] value with
    | (_ :: _ :: _) as ls =>
        if forallb simple_line ls then
          Some (lit "'" ++ join [LF; LF; SP; SP] ls ++ lit "'")
        else None
    | _ => None
    end.

Fixpoint dump_pairs (d : list (pyval * pyval)) : option str :=
  match d with
  | [] => Some []
  | (VStr k, VStr v) :: d' =>
      if simple k then
        match dump_value k v, dump_pairs d' with
        | Some text, Some rest => Some (k ++ lit ": " ++ text ++ [LF] ++ rest)
        | _, _ => None
        end
      else None
  | _ :: _ => None
  end.

Definition outside_fragment : str := lit "# outside the fragment" ++ [LF].

Definition dump (v : pyval) : str :=
  match v with
  | VDict [] => lit "{}" ++ [LF]
  | VDict d =>
      match dump_pairs d with
      | Some text => text
      | None => outside_fragment
      end
  | _ => outside_fragment
  end.

(** The text between double quotes, escapes resolved. *)
Fixpoint unescape (s : str) : option str :=
  match s with
  | [] => None
  | c :: s' =>
      if N.eqb c 34%N then
        match s' with [] => Some [] | _ => None end
      else if N.eqb c BACKSLASH then
        match s' with
        | e :: s'' =>
            match unescape s'' with
            | Some rest =>
                if N.eqb e 110%N then Some (LF :: rest)
                else if N.eqb e BACKSLASH then Some (BACKSLASH :: rest)
                else if N.eqb e 34%N then Some (34%N :: rest)
                else None
            | None => None
            end
        | [] => None
        end
      else if simple_char c then
        match unescape s' with
        | Some rest => Some (c :: rest)
        | None => None
        end
      else None
  end.

Definition load_value (text : str) : option str :=
  match text with
  | [] => None
  | c :: rest =>
      if N.eqb c 34%N then unescape rest
      else if simple text then Some text
      else None
  end.

(** [key: value] on one line. *)
Fixpoint split_entry (key : str) (line : str) : option (str * str) :=
  match line with
  | [] => None
  | c :: rest =>
      if N.eqb c 58%N then
        match rest with
        | d :: value => if N.eqb d SP then Some (rev key, value) else None
        | [] => None
        end
      else split_entry (c :: key) rest
  end.

Fixpoint load_lines (ls : list str) (acc : list (pyval * pyval))
  : load_result :=
  match ls with
  | [] => Loaded (VDict acc)
  | line :: rest =>
      if blank line then load_lines rest acc
      else
        match split_entry [] line with
        | Some (k, text) =>
            if simple k then
              match load_value text with
              | Some v => load_lines rest (dict_set k (VStr v) acc)
              | None => LoadYAMLError
              end
            else LoadYAMLError
        | None => LoadYAMLError
        end
  end.

Definition safe_load (s : str) : load_result :=
  if blank s then Loaded VNone else load_lines (lines_lf [] s) [].

(** Shell-style matching with [*] and [?], without bracket classes. *)
Fixpoint glob (pattern : str) (s : str) : bool :=
  match pattern with
  | [] => match s with [] => true | _ => false end
  | c :: pattern' =>
      if N.eqb c 42%N then
        (fix star (t : str) : bool :=
           glob pattern' t ||
           match t with
           | [] => false
           | _ :: t' => star t'
           end) s
      else
        match s with
        | [] => false
        | x :: s' => (N.eqb c 63%N || N.eqb x c) && glob pattern' s'
        end
  end.

Definition blank_is_none (s : str) (H : blank s = true)
  : safe_load s = Loaded VNone.
Proof. unfold safe_load. rewrite H. reflexivity. Qed.

Definition lib : library :=
  {| yaml_safe_load := safe_load;
     yaml_dump := dump;
     fnmatch := fun path pattern => glob pattern path;
     re_search := Re.search_i;
     safe_load_blank := blank_is_none;
     re_search_ascii := fun r s _ _ => eq_refl;
     re_search_finds := fun r s H => H |}.

End MiniYaml.

(** [MiniYaml] with the timestamp that names no day: YAML resolves a plain
    [YYYY-MM-DD] as a timestamp, and for a month outside 1..12 or a day
    outside 1..31 the constructor of [datetime.date] raises [ValueError],
    which is no [YAMLError]. *)
Module TimestampYaml.

Definition two_digits (a b : char) : option N :=
  if is_digit_ascii a && is_digit_ascii b
  then Some ((a - 48) * 10 + (b - 48))%N
  else None.

Definition impossible_date (value : str) : bool :=
  match value with
  | [y1; y2; y3; y4; h1; m1; m2; h2; d1; d2] =>
      is_digit_ascii y1 && is_digit_ascii y2 && is_digit_ascii y3
      && is_digit_ascii y4 && N.eqb h1 45%N && N.eqb h2 45%N
      && match two_digits m1 m2, two_digits d1 d2 with
         | Some m, Some d =>
             (N.eqb m 0 || N.ltb 12 m || N.eqb d 0 || N.ltb 31 d)%N
         | _, _ => false
         end
  | _ => false
  end.

Definition names_no_day (line : str) : bool :=
  match MiniYaml.split_entry [] line with
  | Some (k, value) => MiniYaml.simple k && impossible_date value
  | None => false
  end.

Definition safe_load (s : str) : load_result :=
  if blank s then Loaded VNone
  else if existsb names_no_day (MiniYaml.lines_lf [] s) then LoadOtherError
  else MiniYaml.safe_load s.

Definition blank_is_none (s : str) (H : blank s = true)
  : safe_load s = Loaded VNone.
Proof. unfold safe_load. rewrite H. reflexivity. Qed.

Definition lib : library :=
  {| yaml_safe_load := safe_load;
     yaml_dump := MiniYaml.dump;
     fnmatch := fun path pattern => MiniYaml.glob pattern path;
     re_search := Re.search_i;
     safe_load_blank := blank_is_none;
     re_search_ascii := fun r s _ _ => eq_refl;
     re_search_finds := fun r s H => H |}.

End TimestampYaml.

(** [MiniYaml] with the plain scalar document added: a block that is one
    line of simple text, without a colon, loads as the string it spells,
    as it does in YAML. *)
Module ScalarYaml.

Definition safe_load (s : str) : load_result :=
  if blank s then Loaded VNone
  else
    match MiniYaml.lines_lf [] s with
    | [line; []] =>
        if MiniYaml.simple line then Loaded (VStr line)
        else MiniYaml.safe_load s
    | _ => MiniYaml.safe_load s
    end.

Definition blank_is_none (s : str) (H : blank s = true)
  : safe_load s = Loaded VNone.
Proof. unfold safe_load. rewrite H. reflexivity. Qed.

Definition lib : library :=
  {| yaml_safe_load := safe_load;
     yaml_dump := MiniYaml.dump;
     fnmatch := fun path pattern => MiniYaml.glob pattern path;
     re_search := Re.search_i;
     safe_load_blank := blank_is_none;
     re_search_ascii := fun r s _ _ => eq_refl;
     re_search_finds := fun r s H => H |}.

End ScalarYaml.

(** A configuration as [Config(vault_path=...)] leaves it: every option at
    its default. *)
Definition default_config (vault : list str) : Config :=
  {| vault_path := vault; dry_run := false; backup := false;
     verbose := false; skip_existing := true; title_case := false;
     preserve_case := false; exclude_dirs := []; include_patterns := [] |}.

Definition file (dir : list string) (name : string) (data : str) : entry :=
  {| e_dir := map lit dir; e_name := lit name;
     e_data := Some data; e_writable := true |}.

(** Text of several lines, each ended by a line feed. *)
Definition text_lines (ls : list string) : str :=
  List.concat (map (fun l => lit l ++ [LF]) ls).

(* ================================================================== *)
(** * Configurations *)
(* ================================================================== *)

Definition with_title_case (b : bool) (c : Config) : Config :=
  {| vault_path := vault_path c; dry_run := dry_run c; backup := backup c;
     verbose := verbose c; skip_existing := skip_existing c;
     title_case := b; preserve_case := preserve_case c;
     exclude_dirs := exclude_dirs c;
     include_patterns := include_patterns c |}.

Definition with_preserve_case (b : bool) (c : Config) : Config :=
  {| vault_path := vault_path c; dry_run := dry_run c; backup := backup c;
     verbose := verbose c; skip_existing := skip_existing c;
     title_case := title_case c; preserve_case := b;
     exclude_dirs := exclude_dirs c;
     include_patterns := include_patterns c |}.

Definition with_dry_run (b : bool) (c : Config) : Config :=
  {| vault_path := vault_path c; dry_run := b; backup := backup c;
     verbose := verbose c; skip_existing := skip_existing c;
     title_case := title_case c; preserve_case := preserve_case c;
     exclude_dirs := exclude_dirs c;
     include_patterns := include_patterns c |}.

Definition plain_config : Config := default_config [lit "vault"].


(** [exclude_dirs = ["archive", "trash"]] *)
Definition archive_trash_config : Config :=
  {| vault_path := [lit "vault"]; dry_run := false; backup := false;
     verbose := false; skip_existing := true; title_case := false;
     preserve_case := false;
     exclude_dirs := [lit "archive"; lit "trash"];
     include_patterns := [] |}.

Definition with_verbose (b : bool) (c : Config) : Config :=
  {| vault_path := vault_path c; dry_run := dry_run c; backup := backup c;
     verbose := b; skip_existing := skip_existing c;
     title_case := title_case c; preserve_case := preserve_case c;
     exclude_dirs := exclude_dirs c;
     include_patterns := include_patterns c |}.



(** [exclude_dirs = ["."]] *)
Definition dot_config : Config :=
  {| vault_path := [lit "vault"]; dry_run := false; backup := false;
     verbose := false; skip_existing := true; title_case := false;
     preserve_case := false;
     exclude_dirs := [lit "."];
     include_patterns := [] |}.

(** [vault --exclude-dirs "drafts,"] *)
Definition trailing_comma_args : ConfigFileLoader.Namespace :=
  {| ConfigFileLoader.arg_vault_path := [lit "vault"];
     ConfigFileLoader.arg_dry_run := false;
     ConfigFileLoader.arg_backup := false;
     ConfigFileLoader.arg_verbose := false;
     ConfigFileLoader.arg_skip_existing := true;
     ConfigFileLoader.arg_title_case := false;
     ConfigFileLoader.arg_preserve_case := false;
     ConfigFileLoader.arg_exclude_dirs := Some (lit "drafts,");
     ConfigFileLoader.arg_include_patterns := None |}.

(** [--title-case --preserve-case] *)
Definition both_case_flags : Config :=
  with_preserve_case true (with_title_case true plain_config).

(* ================================================================== *)
(** * Sample documents *)
(* ================================================================== *)

Definition DQUOTE : char := 34%N.

(** A block that is never closed. *)
Definition unclosed_doc : str :=
  text_lines ["---"; "title: Test"; "tags: [test]"; "";
              "# Content without closing delimiter"]%string.

(** A block with an unclosed bracket. *)
Definition invalid_doc : str :=
  text_lines ["---"; "title: Test Document"; "invalid: [unclosed bracket";
              "---"; ""; "# Main Content"]%string.

(** A block that holds a tab. *)
Definition tab_doc : str :=
  lit "---" ++ [LF; TAB; LF] ++ lit "---" ++ [LF] ++ lit "Body" ++ [LF].

(** A block with the thirteenth month. *)
Definition bad_date_doc : str :=
  text_lines ["---"; "date: 2024-13-45"; "---"; "Body"]%string.

(** A block of blank lines. *)
Definition blank_doc : str :=
  text_lines ["---"; "   "; "   "; "---"; ""; "# Content"]%string.

(** A note with one metadata key. *)
Definition titled_doc : str :=
  text_lines ["---"; "title: Test Note"; "---"; ""; "# Content"; "";
              "This is a test note."]%string.
Definition titled_metadata : list (pyval * pyval) :=
  [(VStr (lit "title"), VStr (lit "Test Note"))].
Definition titled_body : str :=
  text_lines [""; "# Content"; ""; "This is a test note."]%string.

(** A note without metadata. *)
Definition plain_doc : str :=
  lit "# Content" ++ [LF; LF] ++ lit "This is a test note.".

(** A note whose [summary] is a text of three lines, the middle one three
    dashes, written on one line with escaped line feeds. *)
Definition ruled_doc : str :=
  lit "---" ++ [LF]
  ++ lit "summary: " ++ [DQUOTE] ++ lit "Part one\n---\nPart two" ++ [DQUOTE]
  ++ [LF] ++ lit "---" ++ [LF] ++ lit "Body" ++ [LF].
Definition ruled_metadata : list (pyval * pyval) :=
  [(VStr (lit "summary"),
    VStr (lit "Part one" ++ [LF] ++ lit "---" ++ [LF] ++ lit "Part two"))].
Definition ruled_body : str := lit "Body" ++ [LF].

(* ================================================================== *)
(** * Sample vaults *)
(* ================================================================== *)

(** A note that cannot be read, and one that can. *)
Definition broken_vault : store :=
  [ {| e_dir := [lit "notes"]; e_name := lit "a.md";
       e_data := None; e_writable := true |};
    file ["notes"]%string "b.md" (lit "# B") ].

(** Two notes without metadata. *)
Definition fresh_vault : store :=
  [ file ["notes"]%string "note1.md" (lit "# Note 1");
    file ["daily-notes"]%string "2024-01-15.md" (lit "# Daily") ].

(** One note with an impossible date. *)
Definition bad_date_vault : store :=
  [ file ["notes"]%string "dated.md" bad_date_doc ].

(** One note that has its heading. *)
Definition headed_vault : store :=
  [ file ["notes"]%string "note2.md"
      (text_lines ["---"; "heading: Existing"; "---"; ""; "# Note 2"]%string) ].


(** The vault of the integration test, with a drawing and a settings
    folder added. *)
Definition test_vault : store :=
  [ file ["notes"]%string "note1.md" (lit "# Note 1");
    file ["notes"]%string "note2.md"
      (text_lines ["---"; "heading: Existing"; "---"; ""]%string
       ++ lit "# Note 2");
    file ["daily-notes"]%string "2024-01-15.md" (lit "# Daily");
    file ["04-TEMPLATES"]%string "template.md" (lit "# Template");
    file ["notes"]%string "project-summary.md" (lit "# Summary");
    file ["notes"]%string "drawing.excalidraw.md" (lit "Drawing");
    file [".obsidian"]%string "config.md" (lit "Config") ].

(* ================================================================== *)
(** * Vocabulary of the specification *)
(* ================================================================== *)

(** The text begins with the three-dash line. *)
Definition opens_block (content : str) : bool :=
  startswith (lit "---" ++ [LF]) content
  || startswith (lit "---" ++ [CR; LF]) content.

(** A line that is the three-dash delimiter once stripped. *)
Definition is_delimiter (line : str) : bool :=
  str_eqb (strip line) (lit "---").

Definition no_delimiter (lines : list str) : bool :=
  forallb (fun line => negb (is_delimiter line)) lines.

(** No line after the first one closes the block. *)
Definition unclosed (content : str) : bool :=
  no_delimiter (skipn 1 (splitlines content)).

(** Line [i] is the first delimiter line after the opening one. *)
Definition closes_at (content : str) (i : nat) : bool :=
  (1 <=? i)
  && no_delimiter (skipn 1 (firstn i (splitlines content)))
  && match nth_error (splitlines content) i with
     | Some line => is_delimiter line
     | None => false
     end.

(** The raw block between the delimiters, and the text after them. *)
Definition block_between (content : str) (i : nat) : str :=
  List.concat (skipn 1 (firstn i (splitlines content))).
Definition body_after (content : str) (i : nat) : str :=
  List.concat (skipn (i + 1) (splitlines content)).

(** The metadata text [_reconstruct_content] puts between the delimiters. *)
Definition emitted_block (L : library) (frontmatter : pyval) : str :=
  let fm_yaml := yaml_dump L frontmatter in
  if endswith [LF] fm_yaml then fm_yaml else fm_yaml ++ [LF].

(** The files the walker counts as special, and those it returns. *)
Definition is_special (config : Config) (e : entry) : bool :=
  walk_reaches config (e_dir e)
  && endswith (lit ".md") (lower (e_name e))
  && endswith (lit ".excalidraw.md") (e_name e).

Definition is_candidate (config : Config) (e : entry) : bool :=
  walk_reaches config (e_dir e)
  && endswith (lit ".md") (lower (e_name e))
  && negb (endswith (lit ".excalidraw.md") (e_name e)).

Definition candidate_paths (config : Config) (fs : store) : list path :=
  map e_path (filter (is_candidate config) fs).

(** A name with the markdown extension. *)
Definition md_like (p : path) : bool :=
  endswith (lit ".md") (lower (snd p)).



(** The files [process_vault] works through, in its order. *)
Definition candidates (config : Config) (fs : store) : list path :=
  sorted (candidate_paths config fs).

(** What the [try] block of [_process_file] decides before it touches the
    disk: nothing to do ([None]), or a heading and the new text. *)
Definition plan_file (L : library) (T : tables) (config : Config)
    (fs : store) (file_path : path) : pyresult (option (str * str)) :=
  content <- read_text fs file_path ;;
  parsed <- _parse_frontmatter L content ;;
  existing <- has_heading (fst parsed) ;;
  if existing && skip_existing config then Ok None
  else
    heading_value <- _generate_heading_value L T config file_path ;;
    frontmatter <- set_heading (fst parsed) heading_value ;;
    Ok (Some (heading_value,
              _reconstruct_content L frontmatter (snd parsed))).









(** [fs'] differs from [fs] at most in the file [p] and in files that
    were added without a markdown name. *)
Definition frames (p : path) (fs fs' : store) : Prop :=
  (forall q, q <> p -> md_like q = true -> lookup fs' q = lookup fs q)
  /\ exists added,
       map e_path fs' = map e_path fs ++ added
       /\ forallb (fun q => negb (md_like q)) added = true.

(** Parse, set [heading], serialize: the codec steps of [_process_file]
    for a heading value [h]. *)
Definition add_heading (L : library) (content h : str) : pyresult str :=
  parsed <- _parse_frontmatter L content ;;
  frontmatter <- set_heading (fst parsed) h ;;
  Ok (_reconstruct_content L frontmatter (snd parsed)).

(** A file with the markdown extension in a directory the walk reaches. *)
Definition reached_markdown (config : Config) (e : entry) : bool :=
  walk_reaches config (e_dir e)
  && endswith (lit ".md") (lower (e_name e)).

(** A name that ends in [.excalidraw.md] as written. *)
Definition is_drawing (e : entry) : bool :=
  endswith (lit ".excalidraw.md") (e_name e).

(** [q] does not come before [p]: the order [sorted] leaves its result
    in. *)
Definition path_le (p q : path) : Prop := path_ltb q p = false.

(** Every log line but the per-file progress line of [--verbose]. *)
Definition not_debug (ev : event) : bool :=
  match ev with
  | DebugProcessing _ _ _ => false
  | _ => true
  end.

(** Neither a hyphen nor an underscore. *)
Definition no_separator (c : char) : bool :=
  negb (N.eqb c 45%N) && negb (N.eqb c 95%N).

(** Notes whose metadata block is a sentence, not a mapping. *)
Definition sentence_doc : str :=
  text_lines ["---"; "Notes of the first meeting"; "---"; "Body"]%string.
Definition heading_sentence_doc : str :=
  text_lines ["---"; "A heading for later"; "---"; "Body"]%string.

Definition sentence_vault : store :=
  [ file ["notes"]%string "meeting.md" sentence_doc;
    file ["notes"]%string "later.md" heading_sentence_doc ].


(** A note two levels below a directory whose name ends in [Journal]. *)
Definition travel_note : path :=
  ([lit "Photo-Journal"; lit "2024"], lit "trip.md").

(** A note stored with Windows line ends. *)
Definition crlf_doc : str :=
  lit "---" ++ [CR; LF] ++ lit "title: Test" ++ [CR; LF]
  ++ lit "---" ++ [CR; LF] ++ lit "Body" ++ [CR; LF].

Definition crlf_vault : store :=
  [ file ["notes"]%string "windows.md" crlf_doc ].

(** The vault of the fresh notes with one archived note in front. *)
Definition archived_note : entry :=
  file ["archive"; "2023"]%string "old.md" (lit "# Old").

Definition settings_note : entry :=
  file ["notes"; ".obsidian"; "plugins"]%string "readme.md" (lit "# Plugin").

(* ================================================================== *)
(** * Python strings: basic facts *)
(* ================================================================== *)

Section StringFacts.

Lemma str_eqb_refl (a : str) : str_eqb a a = true.
Proof.
  induction a as [|x a IH]; simpl; [reflexivity|].
  now rewrite N.eqb_refl, IH.
Qed.

Lemma str_eqb_eq (a b : str) : str_eqb a b = true <-> a = b.
Proof.
  split.
  - revert b. induction a as [|x a IH]; intros [|y b] H; simpl in H;
      try discriminate; [reflexivity|].
    apply andb_true_iff in H. destruct H as [Hxy Hab].
    apply N.eqb_eq in Hxy. subst y. f_equal. now apply IH.
  - intros ->. apply str_eqb_refl.
Qed.

Lemma str_eqb_neq (a b : str) : str_eqb a b = false <-> a <> b.
Proof.
  split.
  - intros H E. apply str_eqb_eq in E. congruence.
  - intros H. destruct (str_eqb a b) eqn:E; [|reflexivity].
    apply str_eqb_eq in E. contradiction.
Qed.

Lemma startswith_app (p s : str) : startswith p (p ++ s) = true.
Proof.
  induction p as [|x p IH]; simpl; [reflexivity|].
  now rewrite N.eqb_refl, IH.
Qed.

Lemma startswith_split (p s : str) :
  startswith p s = true -> exists t, s = p ++ t.
Proof.
  revert s. induction p as [|x p IH]; intros s H.
  - now exists s.
  - destruct s as [|y s]; simpl in H; [discriminate|].
    apply andb_true_iff in H. destruct H as [Hxy Hp].
    apply N.eqb_eq in Hxy. subst y.
    destruct (IH _ Hp) as [t ->]. now exists t.
Qed.

Lemma endswith_app (p s : str) : endswith p (s ++ p) = true.
Proof. unfold endswith. rewrite rev_app_distr. apply startswith_app. Qed.

Lemma endswith_split (p s : str) :
  endswith p s = true -> exists t, s = t ++ p.
Proof.
  unfold endswith. intros H. apply startswith_split in H.
  destruct H as [t Ht]. exists (rev t).
  rewrite <- (rev_involutive s), Ht, rev_app_distr, rev_involutive.
  reflexivity.
Qed.

Lemma lstrip_keeps_last (a : str) (c : char) :
  isspace c = false -> lstrip (a ++ [c]) <> [].
Proof.
  intros Hc. induction a as [|x a IH]; simpl.
  - rewrite Hc. discriminate.
  - destruct (isspace x); [exact IH|discriminate].
Qed.

(** A text whose first character is no whitespace does not strip to
    nothing. *)
Lemma strip_nonblank (c : char) (s : str) :
  isspace c = false -> strip (c :: s) <> [].
Proof.
  intros Hc. unfold strip, rstrip. simpl lstrip. rewrite Hc.
  intros E. apply (f_equal (@rev char)) in E.
  rewrite rev_involutive in E. simpl in E.
  now apply (lstrip_keeps_last (rev s) c Hc).
Qed.

Lemma opens_block_nonblank (content : str) :
  opens_block content = true -> strip content <> [].
Proof.
  unfold opens_block. intros H. apply orb_true_iff in H.
  destruct H as [H|H]; apply startswith_split in H; destruct H as [t ->];
    simpl; now apply strip_nonblank.
Qed.

End StringFacts.

(* ================================================================== *)
(** * Metadata codec: [_parse_frontmatter] *)
(* ================================================================== *)

Section Codec.

Variable L : library.

Lemma closing_index_none (k : nat) (lines : list str) :
  no_delimiter lines = true -> closing_index k lines = None.
Proof.
  revert k. induction lines as [|l ls IH]; intros k H; simpl in *.
  - reflexivity.
  - apply andb_true_iff in H. destruct H as [Hl Hls].
    unfold is_delimiter in Hl. apply negb_true_iff in Hl.
    rewrite Hl. now apply IH.
Qed.

Lemma closing_index_some (k n : nat) (lines : list str) (line : str) :
  no_delimiter (firstn n lines) = true ->
  nth_error lines n = Some line ->
  is_delimiter line = true ->
  closing_index k lines = Some (k + n).
Proof.
  revert k lines. induction n as [|n IH]; intros k [|l ls] Hno Hnth Hd;
    simpl in *; try discriminate.
  - injection Hnth as ->. unfold is_delimiter in Hd. rewrite Hd.
    f_equal. lia.
  - apply andb_true_iff in Hno. destruct Hno as [Hl Hls].
    unfold is_delimiter in Hl. apply negb_true_iff in Hl. rewrite Hl.
    rewrite (IH (S k) ls Hls Hnth Hd). f_equal. lia.
Qed.

Lemma skipn_1_firstn (A : Type) (i : nat) (l : list A) :
  skipn 1 (firstn (S i) l) = firstn i (skipn 1 l).
Proof. destruct l; simpl; [now rewrite firstn_nil|reflexivity]. Qed.

Lemma closes_at_index (content : str) (i : nat) :
  closes_at content i = true ->
  closing_index 1 (skipn 1 (splitlines content)) = Some i.
Proof.
  unfold closes_at. intros H.
  apply andb_true_iff in H. destruct H as [H Hd].
  apply andb_true_iff in H. destruct H as [Hi Hno].
  apply Nat.leb_le in Hi. destruct i as [|i]; [lia|].
  rewrite skipn_1_firstn in Hno.
  destruct (nth_error (splitlines content) (S i)) as [line|] eqn:Hn;
    [|discriminate].
  change (S i) with (1 + i).
  apply closing_index_some with (line := line); auto.
  destruct (splitlines content); simpl in *; [discriminate|exact Hn].
Qed.

Lemma parse_unfold (content : str) :
  opens_block content = true ->
  _parse_frontmatter L content =
  match closing_index 1 (skipn 1 (splitlines content)) with
  | Some i =>
      match yaml_safe_load L (block_between content i) with
      | Loaded v =>
          Ok (Some (if truthy v then v else VDict []), body_after content i)
      | LoadYAMLError => Ok (None, content)
      | LoadOtherError => Raise LoaderError
      end
  | None => Ok (None, content)
  end.
Proof.
  intros Ho. unfold _parse_frontmatter.
  pose proof (opens_block_nonblank _ Ho) as Hs.
  destruct (strip content) as [|c s] eqn:E; [congruence|].
  unfold opens_block in Ho. rewrite Ho. reflexivity.
Qed.

(** C2 (as amended).  Metadata codec, every way [_parse_frontmatter]
    ends.  A text that opens no block, or opens one and never closes it, or
    whose block makes the YAML loader raise [YAMLError], parses to
    "no metadata" with the whole text as body.  A block on which the loader
    raises another exception makes [_parse_frontmatter] raise.  A block
    the loader reads gives the value read, or the empty mapping when that
    value is falsy; a block that is empty or holds only spaces and line
    ends is such a block. *)
Theorem parse_frontmatter_absent_or_empty (content : str) :
  (opens_block content = true ->
   unclosed content = true ->
   _parse_frontmatter L content = Ok (None, content))
  /\
  (forall i,
     opens_block content = true ->
     closes_at content i = true ->
     yaml_safe_load L (block_between content i) = LoadYAMLError ->
     _parse_frontmatter L content = Ok (None, content))
  /\
  (forall i,
     opens_block content = true ->
     closes_at content i = true ->
     blank (block_between content i) = true ->
     _parse_frontmatter L content
     = Ok (Some (VDict []), body_after content i))
  /\
  (forall i,
     opens_block content = true ->
     closes_at content i = true ->
     yaml_safe_load L (block_between content i) = LoadOtherError ->
     _parse_frontmatter L content = Raise LoaderError)
  /\
  (forall i v,
     opens_block content = true ->
     closes_at content i = true ->
     yaml_safe_load L (block_between content i) = Loaded v ->
     _parse_frontmatter L content
     = Ok (Some (if truthy v then v else VDict []), body_after content i))
  /\
  (opens_block content = false ->
   _parse_frontmatter L content = Ok (None, content)).
Proof.
  split; [|split; [|split; [|split; [|split]]]].
  - intros Ho Hu. rewrite (parse_unfold _ Ho).
    now rewrite (closing_index_none 1 _ Hu).
  - intros i Ho Hc Hy. rewrite (parse_unfold _ Ho).
    now rewrite (closes_at_index _ _ Hc), Hy.
  - intros i Ho Hc Hb. rewrite (parse_unfold _ Ho).
    rewrite (closes_at_index _ _ Hc).
    now rewrite (safe_load_blank L _ Hb).
  - intros i Ho Hc Hy. rewrite (parse_unfold _ Ho).
    now rewrite (closes_at_index _ _ Hc), Hy.
  - intros i v Ho Hc Hy. rewrite (parse_unfold _ Ho).
    now rewrite (closes_at_index _ _ Hc), Hy.
  - intros Ho. unfold _parse_frontmatter. unfold opens_block in Ho.
    rewrite Ho. now destruct (strip content).
Qed.

(** The same holds for every block the loader reads as an empty value
    ([None], [0], [False], an empty string, list or mapping): the [or {}]
    of the script turns it into the empty mapping. *)
Lemma parse_falsy_document (content : str) (i : nat) (v : pyval) :
  opens_block content = true ->
  closes_at content i = true ->
  yaml_safe_load L (block_between content i) = Loaded v ->
  truthy v = false ->
  _parse_frontmatter L content = Ok (Some (VDict []), body_after content i).
Proof.
  intros Ho Hc Hy Hv. rewrite (parse_unfold _ Ho).
  now rewrite (closes_at_index _ _ Hc), Hy, Hv.
Qed.

(** A loader exception that is no YAMLError is not caught here: it leaves
    [_parse_frontmatter] and reaches the handler of [_process_file]. *)
Lemma parse_loader_exception (content : str) (i : nat) :
  opens_block content = true ->
  closes_at content i = true ->
  yaml_safe_load L (block_between content i) = LoadOtherError ->
  _parse_frontmatter L content = Raise LoaderError.
Proof.
  intros Ho Hc Hy. rewrite (parse_unfold _ Ho).
  now rewrite (closes_at_index _ _ Hc), Hy.
Qed.

End Codec.

(* ================================================================== *)
(** * Metadata codec: the round trip through [_reconstruct_content] *)
(* ================================================================== *)

Section RoundTrip.

Variable L : library.

Lemma splitlines_from_cons (cur : str) (c : char) (s : str) :
  splitlines_from cur (c :: s)
  = if N.eqb c CR then
      match s with
      | d :: s'' =>
          if N.eqb d LF then rev (LF :: CR :: cur) :: splitlines_from [] s''
          else rev (CR :: cur) :: splitlines_from [] s
      | [] => [rev (CR :: cur)]
      end
    else if is_linebreak c then rev (c :: cur) :: splitlines_from [] s
    else splitlines_from (c :: cur) s.
Proof. reflexivity. Qed.

(** Joining the lines gives the text back. *)
Lemma concat_splitlines_from (n : nat) :
  forall s cur, List.length s <= n ->
    List.concat (splitlines_from cur s) = rev cur ++ s.
Proof.
  induction n as [|n IH]; intros s cur Hlen.
  - destruct s; [|simpl in Hlen; lia]. simpl.
    destruct cur; simpl; now rewrite ?app_nil_r.
  - destruct s as [|c s].
    { simpl. destruct cur; simpl; now rewrite ?app_nil_r. }
    simpl in Hlen. rewrite splitlines_from_cons.
    destruct (N.eqb c CR) eqn:Ec.
    + apply N.eqb_eq in Ec. subst c.
      destruct s as [|d s].
      * simpl. now rewrite app_nil_r.
      * simpl in Hlen. destruct (N.eqb d LF) eqn:Ed.
        -- apply N.eqb_eq in Ed. subst d.
           rewrite concat_cons, IH by lia. simpl rev.
           now rewrite <- !app_assoc.
        -- rewrite concat_cons, IH by (simpl; lia). simpl rev.
           now rewrite <- !app_assoc.
    + destruct (is_linebreak c).
      * rewrite concat_cons, IH by lia. simpl rev.
        now rewrite <- !app_assoc.
      * rewrite IH by lia. simpl rev. now rewrite <- !app_assoc.
Qed.

Lemma concat_splitlines (s : str) : List.concat (splitlines s) = s.
Proof. exact (concat_splitlines_from (List.length s) s [] (le_n _)). Qed.

(** A line feed ends a line whatever follows: the lines of [a ++ LF :: b]
    are those of [a ++ [LF]], then those of [b]. *)
Lemma splitlines_from_linefeed (n : nat) :
  forall a cur b, List.length a <= n ->
    splitlines_from cur (a ++ LF :: b)
    = splitlines_from cur (a ++ [LF]) ++ splitlines_from [] b.
Proof.
  induction n as [|n IH]; intros a cur b Hlen.
  - destruct a; [|simpl in Hlen; lia]. reflexivity.
  - destruct a as [|c a]; [reflexivity|].
    simpl in Hlen.
    rewrite <- !app_comm_cons, !splitlines_from_cons.
    destruct (N.eqb c CR) eqn:Ec.
    + destruct a as [|d a].
      * reflexivity.
      * simpl in Hlen. rewrite <- !app_comm_cons. cbv iota.
        destruct (N.eqb d LF).
        -- rewrite IH by lia. reflexivity.
        -- rewrite !app_comm_cons, IH by (simpl; lia). reflexivity.
    + destruct (is_linebreak c); rewrite IH by lia; reflexivity.
Qed.

Lemma splitlines_linefeed (a b : str) :
  splitlines (a ++ LF :: b) = splitlines (a ++ [LF]) ++ splitlines b.
Proof. exact (splitlines_from_linefeed (List.length a) a [] b (le_n _)). Qed.

Lemma emitted_block_ends (frontmatter : pyval) :
  exists y, emitted_block L frontmatter = y ++ [LF].
Proof.
  unfold emitted_block.
  destruct (endswith [LF] (yaml_dump L frontmatter)) eqn:E.
  - now apply endswith_split.
  - now exists (yaml_dump L frontmatter).
Qed.

Lemma reconstruct_shape (frontmatter : pyval) (body : str) :
  _reconstruct_content L frontmatter body
  = lit "---" ++ [LF] ++ emitted_block L frontmatter
    ++ lit "---" ++ [LF] ++ body.
Proof. reflexivity. Qed.

Lemma reconstruct_lines (frontmatter : pyval) (body : str) :
  splitlines (_reconstruct_content L frontmatter body)
  = (lit "---" ++ [LF])
    :: splitlines (emitted_block L frontmatter)
    ++ (lit "---" ++ [LF]) :: splitlines body.
Proof.
  rewrite reconstruct_shape.
  destruct (emitted_block_ends frontmatter) as [y ->].
  assert (E : lit "---" ++ [LF] ++ (y ++ [LF]) ++ lit "---" ++ [LF] ++ body
              = lit "---" ++ LF :: (y ++ LF :: (lit "---" ++ LF :: body))).
  { rewrite <- app_assoc. reflexivity. }
  rewrite E.
  rewrite (splitlines_linefeed (lit "---") (y ++ LF :: lit "---" ++ LF :: body)).
  rewrite (splitlines_linefeed y (lit "---" ++ LF :: body)).
  rewrite (splitlines_linefeed (lit "---") body).
  reflexivity.
Qed.

Lemma no_delimiter_firstn_app (a b : list str) :
  no_delimiter a = true -> no_delimiter (firstn (List.length a) (a ++ b)) = true.
Proof.
  intros H. rewrite firstn_app, Nat.sub_diag, firstn_all. simpl.
  now rewrite app_nil_r.
Qed.

(** Reading back what [_reconstruct_content] wrote: when no line of the
    emitted block strips to the delimiter, the block found is the emitted
    block and the body is the body. *)
Lemma parse_reconstructed (frontmatter : pyval) (body : str) :
  no_delimiter (splitlines (emitted_block L frontmatter)) = true ->
  _parse_frontmatter L (_reconstruct_content L frontmatter body)
  = match yaml_safe_load L (emitted_block L frontmatter) with
    | Loaded v => Ok (Some (if truthy v then v else VDict []), body)
    | LoadYAMLError =>
        Ok (None, _reconstruct_content L frontmatter body)
    | LoadOtherError => Raise LoaderError
    end.
Proof.
  intros Hno.
  set (out := _reconstruct_content L frontmatter body).
  set (block := splitlines (emitted_block L frontmatter)) in *.
  assert (Hlines : splitlines out
                   = (lit "---" ++ [LF])
                     :: block ++ (lit "---" ++ [LF]) :: splitlines body)
    by apply reconstruct_lines.
  assert (Ho : opens_block out = true) by reflexivity.
  rewrite (parse_unfold L _ Ho).
  assert (Hi : closing_index 1 (skipn 1 (splitlines out))
               = Some (1 + List.length block)).
  { rewrite Hlines. simpl skipn.
    apply closing_index_some with (line := lit "---" ++ [LF]).
    - now apply no_delimiter_firstn_app.
    - rewrite nth_error_app2 by lia. now rewrite Nat.sub_diag.
    - reflexivity. }
  rewrite Hi.
  assert (Hb : block_between out (1 + List.length block)
               = emitted_block L frontmatter).
  { unfold block_between. rewrite Hlines.
    change (1 + List.length block) with (S (List.length block)).
    rewrite skipn_1_firstn. simpl skipn.
    rewrite firstn_app, Nat.sub_diag, firstn_all. simpl.
    rewrite app_nil_r. apply concat_splitlines. }
  assert (Hbody : body_after out (1 + List.length block) = body).
  { unfold body_after. rewrite Hlines.
    replace (1 + List.length block + 1) with (S (List.length block + 1))
      by lia.
    simpl skipn. rewrite skipn_app.
    rewrite skipn_all2 by lia. simpl.
    replace (List.length block + 1 - List.length block) with 1 by lia.
    simpl. apply concat_splitlines. }
  now rewrite Hb, Hbody.
Qed.

Lemma parse_absent_body (content body : str) :
  _parse_frontmatter L content = Ok (None, body) -> body = content.
Proof.
  unfold _parse_frontmatter.
  destruct (strip content); [congruence|].
  destruct (_ || _); [|congruence].
  destruct (closing_index _ _); [|congruence].
  destruct (yaml_safe_load L _); congruence.
Qed.

Lemma dict_set_fresh (k : str) (v : pyval) (d : list (pyval * pyval)) :
  dict_has k d = false -> dict_set k v d = d ++ [(VStr k, v)].
Proof.
  induction d as [|[k' v'] d IH]; simpl; [reflexivity|].
  intros H. apply orb_false_iff in H. destruct H as [Hk Hd].
  rewrite Hk. now rewrite IH.
Qed.



(** C1 (as amended).  Metadata codec, round trip: for a document whose
    metadata is a mapping [d] without a [heading] key, parse / set
    [heading] / serialize gives a text that parses to [d] followed by the
    [heading] entry, with the same body; for a document without metadata
    the result parses to the single [heading] entry and its body is the
    whole original text.  Both hold when the YAML library reads its own
    output back as the mapping it was given and no line of that output
    strips to the three-dash delimiter. *)
Theorem add_heading_round_trip (content h : str) :
  (forall d body,
     _parse_frontmatter L content = Ok (Some (VDict d), body) ->
     dict_has (lit "heading") d = false ->
     let d' := d ++ [(VStr (lit "heading"), VStr h)] in
     no_delimiter (splitlines (emitted_block L (VDict d'))) = true ->
     yaml_safe_load L (emitted_block L (VDict d')) = Loaded (VDict d') ->
     exists out,
       add_heading L content h = Ok out /\
       _parse_frontmatter L out = Ok (Some (VDict d'), body))
  /\
  (forall body,
     _parse_frontmatter L content = Ok (None, body) ->
     let d' := [(VStr (lit "heading"), VStr h)] in
     no_delimiter (splitlines (emitted_block L (VDict d'))) = true ->
     yaml_safe_load L (emitted_block L (VDict d')) = Loaded (VDict d') ->
     exists out,
       add_heading L content h = Ok out /\
       _parse_frontmatter L out = Ok (Some (VDict d'), content)).
Proof.
  split.
  - intros d body Hp Hfresh d' Hno Hload.
    exists (_reconstruct_content L (VDict d') body). split.
    + unfold add_heading. rewrite Hp. simpl.
      now rewrite (dict_set_fresh _ _ _ Hfresh).
    + rewrite (parse_reconstructed _ _ Hno), Hload.
      unfold d'. destruct d; reflexivity.
  - intros body Hp d' Hno Hload.
    pose proof (parse_absent_body _ _ Hp) as ->.
    exists (_reconstruct_content L (VDict d') content). split.
    + unfold add_heading. rewrite Hp. reflexivity.
    + now rewrite (parse_reconstructed _ _ Hno), Hload.
Qed.

End RoundTrip.

(* ================================================================== *)
(** * Metadata codec: worked documents *)
(* ================================================================== *)

Section CodecExamples.

(** Witness of C2: the three documents of the test suite (no closing
    delimiter, an unclosed bracket, a block of blank lines). *)
Lemma parse_frontmatter_absent_or_empty_witness :
  (opens_block unclosed_doc = true /\ unclosed unclosed_doc = true /\
   _parse_frontmatter MiniYaml.lib unclosed_doc = Ok (None, unclosed_doc))
  /\
  (opens_block invalid_doc = true /\ closes_at invalid_doc 3 = true /\
   yaml_safe_load MiniYaml.lib (block_between invalid_doc 3) = LoadYAMLError /\
   _parse_frontmatter MiniYaml.lib invalid_doc = Ok (None, invalid_doc))
  /\
  (opens_block blank_doc = true /\ closes_at blank_doc 3 = true /\
   blank (block_between blank_doc 3) = true /\
   _parse_frontmatter MiniYaml.lib blank_doc
   = Ok (Some (VDict []), body_after blank_doc 3)).
Proof.
  pose proof (parse_frontmatter_absent_or_empty MiniYaml.lib unclosed_doc) as [H1 _].
  pose proof (parse_frontmatter_absent_or_empty MiniYaml.lib invalid_doc) as [_ [H2 _]].
  pose proof (parse_frontmatter_absent_or_empty MiniYaml.lib blank_doc)
    as [_ [_ [H3 _]]].
  split; [|split].
  - split; [reflexivity|]. split; [reflexivity|].
    apply H1; reflexivity.
  - split; [reflexivity|]. split; [reflexivity|]. split; [reflexivity|].
    apply (H2 3); reflexivity.
  - split; [reflexivity|]. split; [reflexivity|]. split; [reflexivity|].
    apply (H3 3); reflexivity.
Defined.

(** Counterexample to C2 as stated.  A block that holds a tab is
    whitespace-only and is no valid YAML: the result is "no metadata", not
    the empty mapping.  A block with a date that does not exist is no
    valid data either, yet the loader fails with [ValueError], which
    [_parse_frontmatter] does not catch: the call raises, and the file is
    counted as an error. *)
Lemma parse_frontmatter_tab_and_bad_date :
  (opens_block tab_doc = true
   /\ closes_at tab_doc 2 = true
   /\ block_between tab_doc 2 = [TAB; LF]
   /\ forallb isspace (block_between tab_doc 2) = true
   /\ _parse_frontmatter MiniYaml.lib tab_doc = Ok (None, tab_doc))
  /\
  (opens_block bad_date_doc = true
   /\ closes_at bad_date_doc 2 = true
   /\ block_between bad_date_doc 2 = lit "date: 2024-13-45" ++ [LF]
   /\ _parse_frontmatter TimestampYaml.lib bad_date_doc = Raise LoaderError
   /\ st_stats (run TimestampYaml.lib builtin plain_config bad_date_vault)
      = count_errors no_stats).
Proof. repeat split. Qed.

(** Witness of C1: a note with one metadata key, and a note with none. *)
Lemma add_heading_round_trip_witness :
  (_parse_frontmatter MiniYaml.lib titled_doc
   = Ok (Some (VDict titled_metadata), titled_body) /\
   dict_has (lit "heading") titled_metadata = false /\
   exists out,
     add_heading MiniYaml.lib titled_doc (lit "test-note") = Ok out /\
     _parse_frontmatter MiniYaml.lib out
     = Ok (Some (VDict (titled_metadata
                        ++ [(VStr (lit "heading"), VStr (lit "test-note"))])),
           titled_body))
  /\
  (_parse_frontmatter MiniYaml.lib plain_doc = Ok (None, plain_doc) /\
   exists out,
     add_heading MiniYaml.lib plain_doc (lit "test-note") = Ok out /\
     _parse_frontmatter MiniYaml.lib out
     = Ok (Some (VDict [(VStr (lit "heading"), VStr (lit "test-note"))]),
           plain_doc)).
Proof.
  pose proof (add_heading_round_trip MiniYaml.lib titled_doc (lit "test-note")) as [H1 _].
  pose proof (add_heading_round_trip MiniYaml.lib plain_doc (lit "test-note")) as [_ H2].
  split.
  - split; [reflexivity|]. split; [reflexivity|].
    apply (H1 titled_metadata titled_body); reflexivity.
  - split; [reflexivity|].
    apply (H2 plain_doc); reflexivity.
Defined.

(** Counterexample to C1 as stated: a value of several lines, one of them
    three dashes.  The emitted block carries the indented line [  ---];
    the parser takes it for the closing delimiter, the block it cuts is no
    YAML, and the rewritten note reads back as a note without metadata. *)
Lemma add_heading_breaks_on_dash_line :
  _parse_frontmatter MiniYaml.lib ruled_doc = Ok (Some (VDict ruled_metadata), ruled_body)
  /\ dict_has (lit "heading") ruled_metadata = false
  /\ exists out,
       add_heading MiniYaml.lib ruled_doc (lit "release") = Ok out /\
       _parse_frontmatter MiniYaml.lib out = Ok (None, out).
Proof.
  split; [reflexivity|]. split; [reflexivity|].
  eexists. split; reflexivity.
Qed.

End CodecExamples.

(* ================================================================== *)
(** * Title case transformer *)
(* ================================================================== *)

Section TitleCase.

Variable T : tables.

Lemma replace_char_absent (a b : char) (s : str) :
  a <> b -> forallb (fun c => negb (N.eqb c a)) (replace_char a b s) = true.
Proof.
  intros Hab. induction s as [|c s IH]; simpl; [reflexivity|].
  rewrite IH, andb_true_r.
  destruct (N.eqb c a) eqn:E.
  - apply negb_true_iff, N.eqb_neq. congruence.
  - now rewrite E.
Qed.

Lemma sub_org_prefix_needs_hyphen (text : str) :
  forallb (fun c => negb (N.eqb c 45%N)) text = true ->
  sub_org_prefix text = text.
Proof.
  destruct text as [|d1 [|d2 [|h rest]]]; try reflexivity.
  simpl. intros H.
  apply andb_true_iff in H. destruct H as [_ H].
  apply andb_true_iff in H. destruct H as [_ H].
  apply andb_true_iff in H. destruct H as [H _].
  apply negb_true_iff in H. rewrite H.
  now rewrite andb_false_r.
Qed.

(** Once the hyphens are spaces there is no [NN-] prefix left to remove:
    the second step of [_to_title_case] changes no text. *)
Lemma org_prefix_step_is_idle (text : str) :
  let spaced := replace_char 95%N SP (replace_char 45%N SP text) in
  sub_org_prefix spaced = spaced.
Proof.
  intros spaced. apply sub_org_prefix_needs_hyphen.
  unfold spaced. induction text as [|c text IH]; simpl; [reflexivity|].
  rewrite IH, andb_true_r.
  destruct (N.eqb c 45%N) eqn:E; [reflexivity|].
  destruct (N.eqb c 95%N); [reflexivity|].
  now rewrite E.
Qed.

(** A term stored in upper case is reached from every casing of it. *)
Lemma title_word_upper_term (word term : str) :
  mem term (PRESERVE_TERMS T) = true ->
  upper word = term ->
  title_word T word = term.
Proof.
  intros Hmem Hup. unfold title_word. now rewrite Hup, Hmem.
Qed.

End TitleCase.

(** C4.  Title case on the examples of the specification, with the
    built-in preserve set: [my-note] and [api-documentation] come out as
    stated; [01-projects] comes out as [01 Projects], because the hyphen of
    the prefix is already a space when the prefix is looked for. *)
Theorem title_case_examples :
  _to_title_case builtin (lit "my-note") = lit "My Note"
  /\ _to_title_case builtin (lit "api-documentation") = lit "API Documentation"
  /\ _to_title_case builtin (lit "01-projects") = lit "01 Projects"
  /\ _to_title_case builtin (lit "01-projects") <> lit "Projects".
Proof.
  repeat split; try reflexivity. discriminate.
Qed.

(** C5.  Casing variants of preserved terms, with the built-in preserve
    set: a term stored in upper case ([API]) is reached from every casing;
    a term stored in mixed case ([iOS]) is kept only when spelled exactly
    so, and its other casings are capitalized like ordinary words. *)
Theorem title_word_casing_variants :
  map (title_word builtin) [lit "api"; lit "Api"; lit "API"]
  = [lit "API"; lit "API"; lit "API"]
  /\ map (title_word builtin) [lit "iOS"; lit "ios"; lit "Ios"; lit "IOS"]
     = [lit "iOS"; lit "Ios"; lit "Ios"; lit "Ios"]
  /\ _to_title_case builtin (lit "ios-development") = lit "Ios Development".
Proof. repeat split. Qed.

(* ================================================================== *)
(** * Heading rule engine *)
(* ================================================================== *)

Section Rules.

Variable L : library.
Variable T : tables.

Lemma is_daily_note_flags (c1 c2 : Config) (rel : str) :
  include_patterns c1 = include_patterns c2 ->
  _is_daily_note L T c1 rel = _is_daily_note L T c2 rel.
Proof. unfold _is_daily_note. now intros ->. Qed.

(** C6 (as amended).  Case flags: with preserve-case on, no part of the
    heading is title-cased, whatever the title-case flag, unless the
    heading comes from the summary, index or readme rule.  A daily note
    gets [Daily Note] and the stem as it stands; a template that is no
    summary file gets [Template:] and the stem as it stands; a file that
    is none of daily note, summary, template, index and readme gets the
    stem as it stands.  For a file that is no summary, index or readme
    the heading is the one computed with title-case off. *)
Theorem preserve_case_scope (config : Config) (file_path : path) :
  let filename := stem (snd file_path) in
  let rel_str :=
    replace_char BACKSLASH 47%N
      (str_of_parts (fst file_path ++ [snd file_path])) in
  preserve_case config = true ->
  (endswith (lit "-summary") filename = false ->
   str_eqb (lower filename) (lit "index") = false ->
   str_eqb (upper filename) (lit "README") = false ->
   _generate_heading_value L T config file_path
   = _generate_heading_value L T (with_title_case false config) file_path)
  /\ (_is_daily_note L T config rel_str = Ok true ->
      _generate_heading_value L T config file_path
      = Ok (lit "Daily Note " ++ filename))
  /\ (_is_daily_note L T config rel_str = Ok false ->
      endswith (lit "-summary") filename = false ->
      _is_template_file L T rel_str filename = Ok true ->
      _generate_heading_value L T config file_path
      = Ok (lit "Template: " ++ filename))
  /\ (_is_daily_note L T config rel_str = Ok false ->
      endswith (lit "-summary") filename = false ->
      _is_template_file L T rel_str filename = Ok false ->
      str_eqb (lower filename) (lit "index") = false ->
      str_eqb (upper filename) (lit "README") = false ->
      _generate_heading_value L T config file_path = Ok filename).
Proof.
  intros filename rel_str Hp. split; [|split; [|split]].
  - intros Hs Hi Hr. unfold _generate_heading_value.
    fold filename. rewrite Hs, Hi, Hr.
    rewrite (is_daily_note_flags config (with_title_case false config))
      by reflexivity.
    rewrite Hp, andb_false_r. simpl. reflexivity.
  - intros Hd. unfold _generate_heading_value. fold filename rel_str.
    now rewrite Hd.
  - intros Hd Hs Ht. unfold _generate_heading_value. fold filename rel_str.
    rewrite Hd. cbn [bind]. rewrite Hs, Ht. reflexivity.
  - intros Hd Hs Ht Hi Hr. unfold _generate_heading_value.
    fold filename rel_str.
    rewrite Hd. cbn [bind]. rewrite Hs, Ht. cbn [bind].
    now rewrite Hi, Hr, Hp, andb_false_r.
Qed.

(** In the summary, index and readme rules preserve-case is not looked
    at: the name is title-cased exactly when title-case is on. *)
Lemma preserve_case_unused_by_named_rules (config : Config)
    (file_path : path) (b : bool) :
  let filename := stem (snd file_path) in
  endswith (lit "-summary") filename = true
  \/ str_eqb (lower filename) (lit "index") = true
  \/ str_eqb (upper filename) (lit "README") = true ->
  _generate_heading_value L T config file_path
  = _generate_heading_value L T (with_preserve_case b config) file_path.
Proof.
  intros filename Hrule. unfold _generate_heading_value.
  fold filename.
  rewrite (is_daily_note_flags config (with_preserve_case b config))
    by reflexivity.
  destruct (_is_daily_note L T _ _) as [[|]|e]; simpl; try reflexivity.
  destruct (endswith (lit "-summary") filename); [reflexivity|].
  destruct (_is_template_file L T _ filename) as [[|]|e]; simpl;
    try reflexivity.
  destruct (str_eqb (lower filename) (lit "index")); [reflexivity|].
  destruct (str_eqb (upper filename) (lit "README")); [reflexivity|].
  destruct Hrule as [H|[H|H]]; discriminate.
Qed.

(** C7 (as amended).  Rule order: a file whose stem is [index-summary],
    outside the daily-note locations and with title-case off, gets the
    heading [index - Summary] from the summary rule. *)
Theorem index_summary_is_a_summary (config : Config) (file_path : path) :
  stem (snd file_path) = lit "index-summary" ->
  title_case config = false ->
  _is_daily_note L T config
    (replace_char BACKSLASH 47%N
       (str_of_parts (fst file_path ++ [snd file_path]))) = Ok false ->
  _generate_heading_value L T config file_path = Ok (lit "index - Summary").
Proof.
  intros Hstem Htc Hdaily. unfold _generate_heading_value.
  rewrite Hdaily, Hstem. unfold cased. rewrite Htc. reflexivity.
Qed.

End Rules.

Section RuleExamples.

(** Witness of C6: [notes/my-note.md] with both case flags on. *)
Lemma preserve_case_scope_witness :
  preserve_case both_case_flags = true
  /\ title_case both_case_flags = true
  /\ _generate_heading_value MiniYaml.lib builtin both_case_flags
       ([lit "notes"], lit "my-note.md")
     = _generate_heading_value MiniYaml.lib builtin
         (with_title_case false both_case_flags)
         ([lit "notes"], lit "my-note.md")
  /\ _generate_heading_value MiniYaml.lib builtin both_case_flags
       ([lit "notes"], lit "my-note.md")
     = Ok (lit "my-note").
Proof.
  destruct (preserve_case_scope MiniYaml.lib builtin both_case_flags
              ([lit "notes"], lit "my-note.md") eq_refl)
    as [Hsame [_ [_ Hstem]]].
  split; [reflexivity|]. split; [reflexivity|].
  split; [exact (Hsame eq_refl eq_refl eq_refl)|].
  exact (Hstem eq_refl eq_refl eq_refl eq_refl eq_refl).
Defined.

(** Counterexample to C6 as stated: with both flags on, the project name
    of a summary file is title-cased, and so is the directory name in the
    heading of an index and of a readme file. *)
Lemma preserve_case_ignored_by_summary_rule :
  preserve_case both_case_flags = true
  /\ _generate_heading_value MiniYaml.lib builtin both_case_flags
       ([lit "projects"], lit "my-project-summary.md")
     = Ok (lit "My Project - Summary")
  /\ _generate_heading_value MiniYaml.lib builtin
       (with_title_case false both_case_flags)
       ([lit "projects"], lit "my-project-summary.md")
     = Ok (lit "my-project - Summary")
  /\ _generate_heading_value MiniYaml.lib builtin both_case_flags
       ([lit "my-project"], lit "index.md")
     = Ok (lit "My Project - Index")
  /\ _generate_heading_value MiniYaml.lib builtin both_case_flags
       ([lit "my-project"], lit "README.md")
     = Ok (lit "My Project - README").
Proof. repeat split. Qed.

(** Witness of C7: [projects/index-summary.md]. *)
Lemma index_summary_is_a_summary_witness :
  _generate_heading_value MiniYaml.lib builtin plain_config
    ([lit "projects"], lit "index-summary.md")
  = Ok (lit "index - Summary").
Proof.
  apply index_summary_is_a_summary; reflexivity.
Defined.

(** Counterexample to C7 as stated: under [journal/] the daily-note rule
    comes first. *)
Lemma index_summary_in_journal_is_a_daily_note :
  stem (lit "index-summary.md") = lit "index-summary"
  /\ _generate_heading_value MiniYaml.lib builtin plain_config
       ([lit "journal"], lit "index-summary.md")
     = Ok (lit "Daily Note index-summary").
Proof. split; reflexivity. Qed.

End RuleExamples.

(* ================================================================== *)
(** * Vault walker *)
(* ================================================================== *)

Section Walker.

(** [sorted] rearranges its argument. *)
Lemma insert_sorted_perm (p : path) (l : list path) :
  Permutation (insert_sorted p l) (p :: l).
Proof.
  induction l as [|q l IH]; simpl; [reflexivity|].
  destruct (path_ltb q p); [|reflexivity].
  rewrite IH. apply perm_swap.
Qed.

Lemma sorted_perm (l : list path) : Permutation (sorted l) l.
Proof.
  induction l as [|p l IH]; simpl; [reflexivity|].
  rewrite insert_sorted_perm. now constructor.
Qed.

Variable config : Config.

(** A name with the markdown extension does not end in [.canvas]. *)
Lemma markdown_is_no_canvas (file : str) :
  endswith (lit ".md") (lower file) = true ->
  endswith (lit ".canvas") file = false.
Proof.
  intros Hmd. destruct (endswith (lit ".canvas") file) eqn:E; [|reflexivity].
  apply endswith_split in E. destruct E as [t ->].
  unfold lower, endswith in Hmd. rewrite map_app, rev_app_distr in Hmd.
  vm_compute in Hmd. discriminate.
Qed.

(** A name that ends in [.excalidraw.md] has the markdown extension. *)
Lemma excalidraw_is_markdown (file : str) :
  endswith (lit ".excalidraw.md") file = true ->
  endswith (lit ".md") (lower file) = true.
Proof.
  intros E. apply endswith_split in E. destruct E as [t ->].
  unfold lower, endswith. rewrite map_app, rev_app_distr. reflexivity.
Qed.

Lemma scan_file_cases (acc : list path * stats) (e : entry) :
  scan_file config acc e
  = if is_special config e then (fst acc, count_skipped_special (snd acc))
    else if is_candidate config e then (fst acc ++ [e_path e], snd acc)
    else acc.
Proof.
  unfold scan_file, is_special, is_candidate.
  destruct (walk_reaches config (e_dir e)); [|reflexivity]. simpl.
  destruct (endswith (lit ".md") (lower (e_name e))) eqn:Emd; [|reflexivity].
  rewrite (markdown_is_no_canvas _ Emd). simpl.
  destruct (endswith (lit ".excalidraw.md") (e_name e)); reflexivity.
Qed.

Lemma special_is_no_candidate (e : entry) :
  is_special config e = true -> is_candidate config e = false.
Proof.
  unfold is_special, is_candidate. intros H.
  apply andb_true_iff in H. destruct H as [_ H]. rewrite H.
  now rewrite andb_false_r.
Qed.

Lemma scan_fold (fs : store) (acc : list path * stats) :
  fold_left (scan_file config) fs acc
  = (fst acc ++ map e_path (filter (is_candidate config) fs),
     Nat.iter (List.length (filter (is_special config) fs))
       count_skipped_special (snd acc)).
Proof.
  revert acc. induction fs as [|e fs IH]; intros [files c]; simpl.
  - now rewrite app_nil_r.
  - rewrite IH, scan_file_cases. simpl.
    destruct (is_special config e) eqn:Es.
    + rewrite (special_is_no_candidate _ Es). simpl.
      f_equal. now rewrite <- Nat.iter_succ_r.
    + destruct (is_candidate config e); simpl.
      * now rewrite <- app_assoc.
      * reflexivity.
Qed.

Lemma skipped_special_iter (n : nat) (c : stats) :
  skipped_special (Nat.iter n count_skipped_special c) = n + skipped_special c
  /\ processed (Nat.iter n count_skipped_special c) = processed c
  /\ skipped_existing (Nat.iter n count_skipped_special c) = skipped_existing c
  /\ errors (Nat.iter n count_skipped_special c) = errors c.
Proof.
  induction n as [|n IH]; simpl; [now repeat split|].
  destruct IH as [H1 [H2 [H3 H4]]]. repeat split; auto.
Qed.

(** What the walker returns: the reached candidates, sorted, and one
    count per reached special file. *)
Lemma find_markdown_files_spec (fs : store) (c : stats) :
  _find_markdown_files config fs c
  = (sorted (candidate_paths config fs),
     Nat.iter (List.length (filter (is_special config) fs))
       count_skipped_special c).
Proof. unfold _find_markdown_files. now rewrite scan_fold. Qed.

(** C10.  Walker, special files: in a directory the walk reaches, a file is
    counted as [skipped_special] exactly when its name ends in [.md]
    whatever the case and in [.excalidraw.md] as written; the [.canvas]
    test never holds for a markdown name; [DIAGRAM.EXCALIDRAW.MD] is
    returned as a candidate; over a vault the counter grows by the number
    of such files. *)
Theorem excalidraw_is_the_special_case (acc : list path * stats) (e : entry) :
  walk_reaches config (e_dir e) = true ->
  let file := e_name e in
  (skipped_special (snd (scan_file config acc e))
   = S (skipped_special (snd acc))
   <-> endswith (lit ".md") (lower file) = true
       /\ endswith (lit ".excalidraw.md") file = true)
  /\ (endswith (lit ".md") (lower file) = true ->
      endswith (lit ".canvas") file = false)
  /\ (file = lit "DIAGRAM.EXCALIDRAW.MD" ->
      scan_file config acc e = (fst acc ++ [e_path e], snd acc))
  /\ (forall fs c,
        skipped_special (snd (_find_markdown_files config fs c))
        = List.length (filter (is_special config) fs) + skipped_special c)
  /\ (forall fs c p,
        In p (fst (_find_markdown_files config fs c))
        <-> exists e',
              In e' fs /\ e_path e' = p
              /\ walk_reaches config (e_dir e') = true
              /\ endswith (lit ".md") (lower (e_name e')) = true
              /\ endswith (lit ".excalidraw.md") (e_name e') = false)
  /\ (forall fs c,
        In e fs ->
        file = lit "DIAGRAM.EXCALIDRAW.MD" ->
        In (e_path e) (fst (_find_markdown_files config fs c))).
Proof.
  assert (Hmem : forall fs c p,
            In p (fst (_find_markdown_files config fs c))
            <-> exists e',
                  In e' fs /\ e_path e' = p
                  /\ walk_reaches config (e_dir e') = true
                  /\ endswith (lit ".md") (lower (e_name e')) = true
                  /\ endswith (lit ".excalidraw.md") (e_name e') = false).
  { intros fs c p. rewrite find_markdown_files_spec. cbn [fst].
    unfold candidate_paths. split.
    - intros Hin. apply (Permutation_in _ (sorted_perm _)) in Hin.
      apply in_map_iff in Hin. destruct Hin as [e' [Hp He']].
      apply filter_In in He'. destruct He' as [Hfs Hc].
      unfold is_candidate in Hc.
      apply andb_true_iff in Hc. destruct Hc as [Hc Hx].
      apply andb_true_iff in Hc. destruct Hc as [Hr Hm].
      apply negb_true_iff in Hx. exists e'. now repeat split.
    - intros [e' [Hfs [Hp [Hr [Hm Hx]]]]].
      apply (Permutation_in _ (Permutation_sym (sorted_perm _))).
      apply in_map_iff. exists e'. split; [exact Hp|].
      apply filter_In. split; [exact Hfs|].
      unfold is_candidate. now rewrite Hr, Hm, Hx. }
  intros Hreach file. split; [|split; [|split; [|split; [|split]]]].
  5:{ exact Hmem. }
  5:{ intros fs c Hin Hname. apply Hmem. exists e.
      split; [exact Hin|]. split; [reflexivity|]. split; [exact Hreach|].
      fold file. rewrite Hname. split; reflexivity. }
  - rewrite scan_file_cases. unfold is_special, is_candidate.
    rewrite Hreach. fold file. simpl.
    destruct (endswith (lit ".md") (lower file)); simpl.
    + destruct (endswith (lit ".excalidraw.md") file); simpl.
      * split; auto.
      * split; [intros H; lia|intros [_ H]; discriminate].
    + split; [intros H; lia|intros [H _]; discriminate].
  - apply markdown_is_no_canvas.
  - intros Hname. unfold scan_file. rewrite Hreach. fold file.
    rewrite Hname. reflexivity.
  - intros fs c. rewrite find_markdown_files_spec. simpl.
    apply skipped_special_iter.
Qed.

End Walker.

(** Witness of C10: [notes/DIAGRAM.EXCALIDRAW.MD] under the default
    configuration. *)
Lemma excalidraw_is_the_special_case_witness :
  scan_file plain_config ([], no_stats)
    (file ["notes"]%string "DIAGRAM.EXCALIDRAW.MD" (lit "x"))
  = ([([lit "notes"], lit "DIAGRAM.EXCALIDRAW.MD")], no_stats)
  /\ In ([lit "notes"], lit "DIAGRAM.EXCALIDRAW.MD")
        (fst (_find_markdown_files plain_config
                [ file ["notes"]%string "diagram.excalidraw.md" (lit "x");
                  file ["notes"]%string "DIAGRAM.EXCALIDRAW.MD" (lit "x") ]
                no_stats)).
Proof.
  pose proof (excalidraw_is_the_special_case plain_config
                ([], no_stats)
                (file ["notes"]%string "DIAGRAM.EXCALIDRAW.MD" (lit "x"))
                eq_refl) as [_ [_ [H [_ [_ Hin]]]]].
  split; [apply H; reflexivity|].
  apply Hin; [right; now left|reflexivity].
Defined.

(** Over a vault: the upper-case drawing is returned, the lower-case one
    is counted as special. *)
Example uppercase_excalidraw_is_returned :
  _find_markdown_files plain_config
    [ file ["notes"]%string "DIAGRAM.EXCALIDRAW.MD" (lit "x");
      file ["notes"]%string "diagram.excalidraw.md" (lit "x") ]
    no_stats
  = ([([lit "notes"], lit "DIAGRAM.EXCALIDRAW.MD")],
     count_skipped_special no_stats).
Proof. reflexivity. Qed.

(* ================================================================== *)
(** * File processor: one file *)
(* ================================================================== *)

Section OneFile.

Variable L : library.
Variable T : tables.
Variable config : Config.

Lemma try_process_file_plan (fs : store) (file_path : path) :
  try_process_file L T config fs file_path
  = match plan_file L T config fs file_path with
    | Raise e => (fs, Raise e)
    | Ok None => (fs, Ok SkippedExisting)
    | Ok (Some (heading_value, new_content)) =>
        if negb (dry_run config) then
          match
            (if backup config
             then copy2 fs file_path (backup_path file_path)
             else Ok fs)
          with
          | Raise e => (fs, Raise e)
          | Ok fs1 =>
              match write_text fs1 file_path new_content with
              | Raise e => (fs1, Raise e)
              | Ok fs2 => (fs2, Ok (Processed heading_value))
              end
          end
        else (fs, Ok (Processed heading_value))
    end.
Proof. reflexivity. Qed.








End OneFile.

(* ================================================================== *)
(** * File processor: the run over the vault *)
(* ================================================================== *)

Section Run.

Variable L : library.
Variable T : tables.
Variable config : Config.







Lemma print_summary_stats (s : state) :
  st_stats (_print_summary s) = st_stats s.
Proof. reflexivity. Qed.

(** [process_vault], with the walker's result spelled out. *)
Lemma process_vault_unfold (s : state) :
  let md_files := candidates config (st_store s) in
  let found :=
    Nat.iter (List.length (filter (is_special config) (st_store s)))
      count_skipped_special (st_stats s) in
  let s0 := log InfoProcessingVault s in
  let s1 := if dry_run config then log InfoDryRun s0 else s0 in
  let s2 := with_stats (fun _ => found) s1 in
  process_vault L T config s
  = if Nat.eqb (List.length md_files) 0 then log WarnNoFiles s2
    else _print_summary
           (process_each L T config 1 (List.length md_files) md_files
              (log (InfoFound (List.length md_files)) s2)).
Proof.
  unfold process_vault. cbv zeta.
  destruct (dry_run config); rewrite find_markdown_files_spec; reflexivity.
Qed.





End Run.

Section RunExamples.


(** The same run, computed: one error, one file processed, and the
    readable note rewritten. *)
Example broken_vault_run :
  st_stats (run MiniYaml.lib builtin plain_config broken_vault)
  = {| processed := 1; skipped_existing := 0; skipped_special := 0;
       errors := 1 |}
  /\ option_map e_data
       (lookup (st_store (run MiniYaml.lib builtin plain_config broken_vault))
          ([lit "notes"], lit "b.md"))
     = Some (Some (text_lines ["---"; "heading: b"; "---"]%string
                   ++ lit "# B")).
Proof. split; reflexivity. Qed.



End RunExamples.

(* ================================================================== *)
(** * The store: lookups after writes *)
(* ================================================================== *)

Section StoreFacts.

Lemma parts_eqb_eq (a b : list str) : parts_eqb a b = true <-> a = b.
Proof.
  split.
  - revert b. induction a as [|x a IH]; intros [|y b] H; simpl in H;
      try discriminate; [reflexivity|].
    apply andb_true_iff in H. destruct H as [Hxy Hab].
    apply str_eqb_eq in Hxy. subst y. f_equal. now apply IH.
  - intros ->. induction b as [|y b IH]; simpl; [reflexivity|].
    now rewrite str_eqb_refl, IH.
Qed.

Lemma path_eqb_eq (p q : path) : path_eqb p q = true <-> p = q.
Proof.
  destruct p as [d n], q as [d' n']. unfold path_eqb. simpl. split.
  - intros H. apply andb_true_iff in H. destruct H as [Hd Hn].
    apply parts_eqb_eq in Hd. apply str_eqb_eq in Hn. congruence.
  - intros H. injection H as -> ->.
    apply andb_true_iff. split; [now apply parts_eqb_eq|apply str_eqb_refl].
Qed.


Lemma lookup_path (fs : store) (p : path) (e : entry) :
  lookup fs p = Some e -> e_path e = p.
Proof.
  unfold lookup. intros H. apply find_some in H. destruct H as [_ H].
  now apply path_eqb_eq.
Qed.






Lemma universal_newlines_cons (c : char) (s : str) :
  universal_newlines (c :: s)
  = if N.eqb c CR then
      match s with
      | d :: s'' =>
          if N.eqb d LF then LF :: universal_newlines s''
          else LF :: universal_newlines s
      | [] => [LF]
      end
    else c :: universal_newlines s.
Proof. reflexivity. Qed.

(** Text mode never delivers a carriage return. *)
Lemma universal_newlines_no_cr (n : nat) :
  forall s, List.length s <= n ->
    forallb (fun c => negb (N.eqb c CR)) (universal_newlines s) = true.
Proof.
  induction n as [|n IH]; intros s Hlen.
  - destruct s; [reflexivity|simpl in Hlen; lia].
  - destruct s as [|c s]; [reflexivity|]. simpl in Hlen.
    rewrite universal_newlines_cons. destruct (N.eqb c CR) eqn:Ec.
    + destruct s as [|d s]; [reflexivity|]. simpl in Hlen.
      destruct (N.eqb d LF); cbn [forallb]; change (negb (N.eqb LF CR)) with true;
        cbn [andb]; apply IH; simpl; lia.
    + cbn [forallb]. rewrite Ec. cbn [negb andb]. apply IH. lia.
Qed.


(** The backup of a file has no markdown name. *)
Lemma with_suffix_bak (name : str) :
  exists x, with_suffix name (suffix name ++ lit ".bak") = x ++ lit ".bak".
Proof.
  unfold with_suffix. destruct (suffix name) as [|c old] eqn:E.
  - now exists name.
  - eexists. rewrite app_assoc. reflexivity.
Qed.

Lemma backup_path_not_md (p : path) : md_like (backup_path p) = false.
Proof.
  unfold md_like, backup_path. simpl.
  destruct (with_suffix_bak (snd p)) as [x ->].
  unfold lower, endswith. rewrite map_app, rev_app_distr. reflexivity.
Qed.


End StoreFacts.

(* ================================================================== *)
(** * File processor: what one file changes on disk *)
(* ================================================================== *)

Section Effects.

Variable L : library.
Variable T : tables.
Variable config : Config.


Lemma frames_trans (p : path) (a b c : store) :
  frames p a b -> frames p b c -> frames p a c.
Proof.
  intros [Hab [X [HX HXmd]]] [Hbc [Y [HY HYmd]]]. split.
  - intros q Hq Hmd. now rewrite Hbc, Hab.
  - exists (X ++ Y). split.
    + now rewrite HY, HX, app_assoc.
    + now rewrite forallb_app, HXmd, HYmd.
Qed.









End Effects.

(* ================================================================== *)
(** * File processor: a second run *)
(* ================================================================== *)

Section SecondRun.

Variable L : library.
Variable T : tables.
Variable config : Config.
















End SecondRun.

Section Idempotence.

Variable L : library.
Variable T : tables.
Variable config : Config.





End Idempotence.

Section IdempotenceExamples.



End IdempotenceExamples.

(* ================================================================== *)
(** * The model against the test suite *)
(* ================================================================== *)

Section TestSuite.

(** [test_is_daily_note] *)
Example test_is_daily_note :
  map (_is_daily_note MiniYaml.lib builtin plain_config)
    (map lit ["00-INBOX/daily-notes/2024-01-15.md";
              "99-ARCHIVE/2024/01-January/2024-01-15.md";
              "daily-notes/note.md"; "journal/entry.md";
              "projects/meeting-notes.md";
              "templates/daily-template.md"]%string)
  = [Ok true; Ok true; Ok true; Ok true; Ok false; Ok false].
Proof. reflexivity. Qed.

(** [test_is_template_file] *)
Example test_is_template_file :
  map (fun pf => _is_template_file MiniYaml.lib builtin (lit (fst pf))
                (lit (snd pf)))
    [("04-TEMPLATES/meeting.md", "meeting");
     ("templates/project.md", "project");
     ("notes/meeting-template.md", "meeting-template");
     ("notes/template-example.md", "template-example");
     ("notes/regular-note.md", "regular-note")]%string
  = [Ok true; Ok true; Ok true; Ok true; Ok false].
Proof. reflexivity. Qed.

(** [test_generate_heading_value_daily_note], [.._project_summary],
    [.._template], [.._index], [.._default], and the daily note of the
    specification with title-case on. *)
Example test_generate_heading_value :
  map (fun cp => _generate_heading_value MiniYaml.lib builtin (fst cp)
                   (map lit (fst (snd cp)), lit (snd (snd cp))))
    [(plain_config, (["00-INBOX"; "daily-notes"], "2024-01-15.md"));
     (with_title_case true plain_config,
      (["00-INBOX"; "daily-notes"], "2024-01-15.md"));
     (plain_config, (["projects"], "my-project-summary.md"));
     (with_title_case true plain_config, (["projects"], "my-project-summary.md"));
     (plain_config, (["04-TEMPLATES"], "meeting-template.md"));
     (plain_config, ([], "my-template.md"));
     (plain_config, (["projects"], "index.md"));
     (with_title_case true plain_config, (["projects"], "index.md"));
     (plain_config, (["projects"], "README.md"));
     (plain_config, (["notes"], "my-note.md"));
     (with_title_case true plain_config, (["notes"], "my-note.md"));
     (plain_config, ([], "file.with.dots.md"))]%string
  = map (fun h => Ok (lit h))
      ["Daily Note 2024-01-15"; "Daily Note 2024-01-15";
       "my-project - Summary"; "My Project - Summary";
       "Template: meeting-template"; "Template: my-template";
       "projects - Index"; "Projects - Index"; "projects - README";
       "my-note"; "My Note"; "file.with.dots"]%string.
Proof. reflexivity. Qed.

(** [test_to_title_case] and [test_preserve_terms_case_sensitivity], the
    cases on which the script and its tests agree. *)
Example test_to_title_case :
  map (fun t => _to_title_case builtin (lit t))
    ["my-note"; "my_note"; "api-documentation"; "html-css-guide"; "README";
     "test-API-guide"; "working-with-api"; "html-and-css"; "readme-file";
     "api-API-Api"]%string
  = map lit
      ["My Note"; "My Note"; "API Documentation"; "HTML CSS Guide"; "README";
       "Test API Guide"; "Working With API"; "HTML And CSS"; "README File";
       "API API API"]%string.
Proof. reflexivity. Qed.

(** [test_should_exclude_directory] *)
Example test_should_exclude_directory :
  _should_exclude_directory plain_config [lit ".obsidian"] = true
  /\ _should_exclude_directory plain_config
       (map lit ["notes"; ".obsidian"; "config"]%string) = true
  /\ map (_should_exclude_directory archive_trash_config)
       [map lit ["archive"; "old"]%string; map lit ["projects"; "trash"]%string;
        map lit ["notes"; "important"]%string]
     = [true; true; false].
Proof. repeat split. Qed.

(** [test_find_markdown_files] and [test_process_vault_integration] *)
Example test_process_vault_integration :
  fst (_find_markdown_files plain_config test_vault no_stats)
  = map (fun p => ([lit (fst p)], lit (snd p)))
      [("04-TEMPLATES", "template.md"); ("daily-notes", "2024-01-15.md");
       ("notes", "note1.md"); ("notes", "note2.md");
       ("notes", "project-summary.md")]%string
  /\ skipped_special (snd (_find_markdown_files plain_config test_vault no_stats))
     = 1
  /\ processed (st_stats (run MiniYaml.lib builtin plain_config test_vault)) = 4
  /\ skipped_existing
       (st_stats (run MiniYaml.lib builtin plain_config test_vault)) = 1
  /\ option_map e_data
       (lookup (st_store (run MiniYaml.lib builtin plain_config test_vault))
          ([lit "daily-notes"], lit "2024-01-15.md"))
     = Some (Some (text_lines ["---"; "heading: Daily Note 2024-01-15"; "---"]%string
                   ++ lit "# Daily")).
Proof. repeat split. Qed.

End TestSuite.

(* ================================================================== *)
(** * Vault walker: what is returned, and in which order *)
(* ================================================================== *)

Section WalkerResult.

Variable config : Config.

Lemma prefixes_self (dir : list str) : In dir (prefixes dir).
Proof.
  induction dir as [|d rest IH]; simpl; [now left|].
  right. now apply in_map.
Qed.

Lemma prefixes_app (dir rest : list str) : In dir (prefixes (dir ++ rest)).
Proof.
  induction dir as [|d dir IH]; simpl.
  - destruct rest; simpl; now left.
  - right. now apply in_map.
Qed.

Lemma walk_reaches_not_excluded (dir : list str) :
  walk_reaches config dir = true ->
  _should_exclude_directory config dir = false.
Proof.
  unfold walk_reaches. intros H.
  pose proof (proj1 (forallb_forall _ _) H _ (prefixes_self dir)) as Hd.
  simpl in Hd.
  now apply negb_true_iff in Hd.
Qed.

(** X1.  Walker, soundness: a path the walker returns is the path of a
    file of the vault, has the markdown extension, is no excalidraw
    drawing, lies in no [.obsidian] directory, and no configured exclusion
    occurs in the path of its directory. *)
Theorem walker_returns_reached_markdown (fs : store) (c : stats) (p : path) :
  In p (fst (_find_markdown_files config fs c)) ->
  (exists e, In e fs /\ e_path e = p)
  /\ endswith (lit ".md") (lower (snd p)) = true
  /\ endswith (lit ".excalidraw.md") (snd p) = false
  /\ mem (lit ".obsidian") (fst p) = false
  /\ forall exclude_dir,
       In exclude_dir (exclude_dirs config) ->
       contains exclude_dir
         (replace_char BACKSLASH 47%N (str_of_parts (fst p))) = false.
Proof.
  rewrite find_markdown_files_spec. simpl. intros Hin.
  apply (Permutation_in _ (sorted_perm _)) in Hin.
  unfold candidate_paths in Hin. apply in_map_iff in Hin.
  destruct Hin as [e [<- He]]. apply filter_In in He.
  destruct He as [Hfs Hcand]. unfold is_candidate in Hcand.
  apply andb_true_iff in Hcand. destruct Hcand as [Hcand Hex].
  apply andb_true_iff in Hcand. destruct Hcand as [Hreach Hmd].
  apply negb_true_iff in Hex.
  pose proof (walk_reaches_not_excluded _ Hreach) as Hnot.
  unfold _should_exclude_directory in Hnot.
  destruct (mem (lit ".obsidian") (e_dir e)) eqn:Eo; [discriminate|].
  split; [now exists e|]. split; [exact Hmd|]. split; [exact Hex|].
  split; [exact Eo|].
  intros x Hx. simpl.
  destruct (contains x _) eqn:Ec; [|reflexivity].
  assert (Hsome : existsb
            (fun exclude_dir =>
               contains exclude_dir
                 (replace_char BACKSLASH 47%N (str_of_parts (e_dir e))))
            (exclude_dirs config) = true)
    by (apply existsb_exists; now exists x).
  congruence.
Qed.

(** A file in or below an excluded directory leaves the scan as it
    was. *)
Lemma scan_file_pruned
    (dir rest : list str) (acc : list path * stats) (e : entry) :
  _should_exclude_directory config dir = true ->
  e_dir e = dir ++ rest ->
  scan_file config acc e = acc.
Proof.
  intros Hex Hdir. unfold scan_file.
  assert (Hreach : walk_reaches config (e_dir e) = false).
  { unfold walk_reaches. rewrite Hdir.
    destruct (forallb _ (prefixes (dir ++ rest))) eqn:E; [|reflexivity].
    pose proof (proj1 (forallb_forall _ _) E _ (prefixes_app dir rest)) as Hd.
    simpl in Hd.
    rewrite Hex in Hd. discriminate. }
  now rewrite Hreach.
Qed.

Lemma find_markdown_files_without
    (before after : store) (e : entry) (c : stats) :
  (forall acc, scan_file config acc e = acc) ->
  _find_markdown_files config (before ++ e :: after) c
  = _find_markdown_files config (before ++ after) c.
Proof.
  intros H. unfold _find_markdown_files.
  rewrite !fold_left_app. cbn [fold_left]. now rewrite H.
Qed.

(** X2.  Walker, pruning: a file in or below an excluded directory could
    as well not be there; the walker returns and counts the same with it
    and without it, whatever its name. *)
Theorem nothing_below_excluded_directory
    (dir rest : list str) (before after : store) (e : entry) (c : stats) :
  _should_exclude_directory config dir = true ->
  e_dir e = dir ++ rest ->
  _find_markdown_files config (before ++ e :: after) c
  = _find_markdown_files config (before ++ after) c.
Proof.
  intros Hex Hdir. apply find_markdown_files_without.
  intros acc. now apply scan_file_pruned with (dir := dir) (rest := rest).
Qed.

Lemma mem_split (x : str) (l : list str) :
  mem x l = true -> exists a b, l = a ++ x :: b.
Proof.
  unfold mem. intros H. apply existsb_exists in H.
  destruct H as [y [Hy Heq]]. apply str_eqb_eq in Heq. subst y.
  now apply in_split.
Qed.

Lemma mem_app_here (x : str) (a : list str) : mem x (a ++ [x]) = true.
Proof.
  unfold mem. apply existsb_exists. exists x. split.
  - apply in_or_app. right. now left.
  - apply str_eqb_refl.
Qed.

(** X3.  Walker, settings folder: whatever the exclusions, a file with
    [.obsidian] among its directories, at any depth, is neither returned
    nor counted, an excalidraw drawing included. *)
Theorem obsidian_is_never_scanned
    (before after : store) (e : entry) (c : stats) :
  mem (lit ".obsidian") (e_dir e) = true ->
  _find_markdown_files config (before ++ e :: after) c
  = _find_markdown_files config (before ++ after) c.
Proof.
  intros H. destruct (mem_split _ _ H) as [a [b Hab]].
  apply find_markdown_files_without. intros acc.
  apply scan_file_pruned with (dir := a ++ [lit ".obsidian"]) (rest := b).
  - unfold _should_exclude_directory. now rewrite mem_app_here.
  - now rewrite Hab, <- app_assoc.
Qed.

(** The vault root is the directory [.]: an exclusion that occurs in this
    one-character text prunes the walk at its first step. *)
Lemma root_exclusion_finds_nothing (x : str) (fs : store) (c : stats) :
  In x (exclude_dirs config) ->
  contains x (lit ".") = true ->
  _find_markdown_files config fs c = ([], c).
Proof.
  intros Hin Hx.
  assert (Hroot : _should_exclude_directory config [] = true).
  { unfold _should_exclude_directory. cbn [mem existsb].
    apply existsb_exists. exists x. split; [assumption|exact Hx]. }
  assert (Hnone : forall acc e, scan_file config acc e = acc).
  { intros acc e.
    now apply scan_file_pruned with (dir := []) (rest := e_dir e). }
  unfold _find_markdown_files.
  assert (Hfold : forall acc, fold_left (scan_file config) fs acc = acc).
  { induction fs as [|e fs' IH]; intros acc; simpl; [reflexivity|].
    now rewrite Hnone, IH. }
  now rewrite Hfold.
Qed.

(** X4.  Exclusions and the vault root: an exclusion that is the empty
    string or a single dot occurs in the root's own relative path, so the
    run finds no file at all, changes nothing, counts nothing and ends on
    the warning, without a summary. *)
Theorem exclusion_matching_root_stops_the_run
    (L : library) (T : tables) (x : str) (fs : store) :
  In x (exclude_dirs config) ->
  contains x (lit ".") = true ->
  st_store (run L T config fs) = fs
  /\ st_stats (run L T config fs) = no_stats
  /\ st_log (run L T config fs)
     = (InfoProcessingVault :: if dry_run config then [InfoDryRun] else [])
       ++ [WarnNoFiles].
Proof.
  intros Hin Hx. unfold run, process_vault. cbv zeta.
  rewrite (root_exclusion_finds_nothing x _ _ Hin Hx).
  cbn [fst snd List.length Nat.eqb].
  destruct (dry_run config); repeat split; reflexivity.
Qed.

Lemma reached_split (e : entry) :
  reached_markdown config e
  = is_candidate config e || is_special config e.
Proof.
  unfold reached_markdown, is_candidate, is_special.
  destruct (walk_reaches config (e_dir e)); [|reflexivity].
  destruct (endswith (lit ".md") (lower (e_name e))); [|reflexivity].
  now destruct (endswith (lit ".excalidraw.md") (e_name e)).
Qed.

(** X5.  Walker, accounting: every markdown file the walk reaches is
    either returned or counted as special, never both, never neither,
    and no other file is returned or counted.  File by file: a reached
    markdown file that is a drawing raises the counter and is not added;
    one that is no drawing is added and leaves the counter; any other file
    changes nothing.  Over the vault: the list returned holds the paths of
    the reached markdown files that are no drawings, each as often as the
    vault lists it; the counter of special files has grown by the number
    of reached drawings, and the other counters are as they were. *)
Theorem reached_markdown_is_returned_or_counted (fs : store) (c : stats) :
  (forall acc e,
     reached_markdown config e = true ->
     is_drawing e = true ->
     scan_file config acc e = (fst acc, count_skipped_special (snd acc)))
  /\ (forall acc e,
        reached_markdown config e = true ->
        is_drawing e = false ->
        scan_file config acc e = (fst acc ++ [e_path e], snd acc))
  /\ (forall acc e,
        reached_markdown config e = false ->
        scan_file config acc e = acc)
  /\ Permutation (fst (_find_markdown_files config fs c))
       (map e_path
          (filter (fun e => reached_markdown config e && negb (is_drawing e))
             fs))
  /\ snd (_find_markdown_files config fs c)
     = Nat.iter
         (List.length
            (filter (fun e => reached_markdown config e && is_drawing e) fs))
         count_skipped_special c
  /\ List.length (filter (reached_markdown config) fs) + skipped_special c
     = List.length (fst (_find_markdown_files config fs c))
       + skipped_special (snd (_find_markdown_files config fs c)).
Proof.
  assert (Hscan : forall acc e,
            scan_file config acc e
            = if reached_markdown config e
              then if is_drawing e
                   then (fst acc, count_skipped_special (snd acc))
                   else (fst acc ++ [e_path e], snd acc)
              else acc).
  { intros acc e. unfold scan_file, reached_markdown, is_drawing.
    destruct (walk_reaches config (e_dir e)); [|reflexivity]. simpl.
    destruct (endswith (lit ".md") (lower (e_name e))) eqn:Emd;
      [|reflexivity].
    now rewrite (markdown_is_no_canvas _ Emd). }
  split; [intros acc e Hr Hd; now rewrite Hscan, Hr, Hd|].
  split; [intros acc e Hr Hd; now rewrite Hscan, Hr, Hd|].
  split; [intros acc e Hr; now rewrite Hscan, Hr|].
  split; [|split].
  - rewrite find_markdown_files_spec. cbn [fst]. apply sorted_perm.
  - rewrite find_markdown_files_spec. reflexivity.
  - assert (E : List.length (filter (reached_markdown config) fs)
                = List.length (filter (is_candidate config) fs)
                  + List.length (filter (is_special config) fs)).
    { induction fs as [|e fs' IH]; simpl; [reflexivity|].
      rewrite reached_split.
      destruct (is_candidate config e) eqn:Ec; simpl.
      - destruct (is_special config e) eqn:Es.
        + rewrite (special_is_no_candidate config e Es) in Ec. discriminate.
        + simpl. now rewrite IH.
      - destruct (is_special config e); simpl; rewrite IH; lia. }
    rewrite find_markdown_files_spec. simpl.
    rewrite (Permutation_length (sorted_perm _)).
    unfold candidate_paths. rewrite length_map.
    destruct (skipped_special_iter
                (List.length (filter (is_special config) fs)) c) as [H _].
    rewrite H. lia.
Qed.

End WalkerResult.

(** Witness of X1: [notes/note1.md] in the vault of the integration
    test. *)
Lemma walker_returns_reached_markdown_witness :
  In ([lit "notes"], lit "note1.md")
     (fst (_find_markdown_files plain_config test_vault no_stats))
  /\ endswith (lit ".md") (lower (lit "note1.md")) = true
  /\ mem (lit ".obsidian") [lit "notes"] = false.
Proof.
  assert (Hin : In ([lit "notes"], lit "note1.md")
                   (fst (_find_markdown_files plain_config test_vault
                           no_stats)))
    by (vm_compute; tauto).
  destruct (walker_returns_reached_markdown plain_config test_vault no_stats
              ([lit "notes"], lit "note1.md") Hin)
    as [_ [Hmd [_ [Hobs _]]]].
  split; [exact Hin|]. split; [exact Hmd|exact Hobs].
Defined.

(** Witness of X2: [archive/2023/old.md] with [archive] excluded. *)
Lemma nothing_below_excluded_directory_witness :
  _should_exclude_directory archive_trash_config [lit "archive"] = true
  /\ _find_markdown_files archive_trash_config
       (fresh_vault ++ archived_note :: headed_vault) no_stats
     = _find_markdown_files archive_trash_config
         (fresh_vault ++ headed_vault) no_stats.
Proof.
  split; [reflexivity|].
  apply (nothing_below_excluded_directory archive_trash_config
           [lit "archive"] [lit "2023"] fresh_vault headed_vault
           archived_note no_stats); reflexivity.
Defined.

(** Witness of X3: [notes/.obsidian/plugins/readme.md]. *)
Lemma obsidian_is_never_scanned_witness :
  mem (lit ".obsidian") (e_dir settings_note) = true
  /\ _find_markdown_files plain_config
       (fresh_vault ++ settings_note :: headed_vault) no_stats
     = _find_markdown_files plain_config (fresh_vault ++ headed_vault)
         no_stats.
Proof.
  split; [reflexivity|].
  apply (obsidian_is_never_scanned plain_config fresh_vault headed_vault
           settings_note no_stats); reflexivity.
Defined.

(** Witness of X4: the single dot as an exclusion, over the vault of the
    integration test. *)
Lemma exclusion_matching_root_stops_the_run_witness :
  In (lit ".") (exclude_dirs dot_config)
  /\ st_store (run MiniYaml.lib builtin dot_config test_vault) = test_vault
  /\ st_stats (run MiniYaml.lib builtin dot_config test_vault) = no_stats
  /\ st_log (run MiniYaml.lib builtin dot_config test_vault)
     = [InfoProcessingVault; WarnNoFiles].
Proof.
  assert (Hin : In (lit ".") (exclude_dirs dot_config)) by (now left).
  split; [exact Hin|].
  exact (exclusion_matching_root_stops_the_run dot_config MiniYaml.lib builtin
           (lit ".") test_vault Hin eq_refl).
Defined.

Section WalkerOrder.

Lemma str_ltb_irrefl (a : str) : str_ltb a a = false.
Proof.
  induction a as [|x a IH]; simpl; [reflexivity|].
  now rewrite N.ltb_irrefl, N.eqb_refl, IH.
Qed.

Lemma str_ltb_asym (a b : str) : str_ltb a b = true -> str_ltb b a = false.
Proof.
  revert b. induction a as [|x a IH]; intros [|y b] H; simpl in *;
    try reflexivity; try discriminate.
  apply orb_true_iff in H. destruct H as [H|H].
  - apply N.ltb_lt in H.
    assert (H1 : N.ltb y x = false) by (apply N.ltb_ge; lia).
    assert (H2 : N.eqb y x = false) by (apply N.eqb_neq; lia).
    now rewrite H1, H2.
  - apply andb_true_iff in H. destruct H as [Hxy Hab].
    apply N.eqb_eq in Hxy. subst y.
    now rewrite N.ltb_irrefl, N.eqb_refl, (IH _ Hab).
Qed.

Lemma parts_ltb_asym (a b : list str) :
  parts_ltb a b = true -> parts_ltb b a = false.
Proof.
  revert b. induction a as [|x a IH]; intros [|y b] H; simpl in *;
    try reflexivity; try discriminate.
  apply orb_true_iff in H. destruct H as [H|H].
  - rewrite (str_ltb_asym _ _ H). simpl.
    destruct (str_eqb y x) eqn:E; [|reflexivity].
    apply str_eqb_eq in E. subst y. rewrite str_ltb_irrefl in H.
    discriminate.
  - apply andb_true_iff in H. destruct H as [Hxy Hab].
    apply str_eqb_eq in Hxy. subst y.
    now rewrite str_ltb_irrefl, str_eqb_refl, (IH _ Hab).
Qed.

Lemma path_ltb_asym (p q : path) : path_ltb p q = true -> path_ltb q p = false.
Proof. unfold path_ltb. apply parts_ltb_asym. Qed.

Lemma insert_sorted_hd (p a : path) (l : list path) :
  path_le a p -> HdRel path_le a l -> HdRel path_le a (insert_sorted p l).
Proof.
  intros Hap Hhd. destruct l as [|q l]; simpl.
  - now constructor.
  - destruct (path_ltb q p); constructor; [now inversion Hhd|assumption].
Qed.

Lemma insert_sorted_keeps_order (p : path) (l : list path) :
  Sorted path_le l -> Sorted path_le (insert_sorted p l).
Proof.
  induction l as [|q l IH]; intros Hs; simpl.
  - repeat constructor.
  - inversion Hs as [|? ? Hl Hhd]; subst.
    destruct (path_ltb q p) eqn:E.
    + constructor; [now apply IH|].
      apply insert_sorted_hd; [|assumption].
      unfold path_le. now apply path_ltb_asym.
    + constructor; [assumption|]. now constructor.
Qed.

Lemma sorted_is_ordered (l : list path) : Sorted path_le (sorted l).
Proof.
  induction l as [|p l IH]; simpl; [constructor|].
  now apply insert_sorted_keeps_order.
Qed.

(** X6.  Walker, result: the list returned holds exactly the reached
    candidates of the vault, each as often as the vault lists it, and no
    path in it comes before its predecessor in the order of paths. *)
Theorem walker_returns_candidates_in_order
    (config : Config) (fs : store) (c : stats) :
  Permutation (fst (_find_markdown_files config fs c))
    (candidate_paths config fs)
  /\ Sorted path_le (fst (_find_markdown_files config fs c)).
Proof.
  rewrite find_markdown_files_spec. simpl. split.
  - apply sorted_perm.
  - apply sorted_is_ordered.
Qed.

End WalkerOrder.

(* ================================================================== *)
(** * Configuration from the command line *)
(* ================================================================== *)

Section CommandLine.

Import ConfigFileLoader.

Lemma split_on_trailing (sep : char) (s cur : str) :
  In [] (split_on sep cur (s ++ [sep])).
Proof.
  revert cur. induction s as [|c s IH]; intros cur; simpl.
  - rewrite N.eqb_refl. right. now left.
  - destruct (N.eqb c sep); [right|]; apply IH.
Qed.

(** X7.  Exclusion list with a trailing comma: the text after the last
    comma is an entry of its own, here the empty string, and with it the
    walker returns nothing and counts nothing. *)
Theorem trailing_comma_excludes_everything
    (args : Namespace) (text : str) (fs : store) (c : stats) :
  arg_exclude_dirs args = Some (text ++ [44%N]) ->
  In [] (exclude_dirs (merge_config args))
  /\ _find_markdown_files (merge_config args) fs c = ([], c).
Proof.
  intros Harg.
  assert (Hin : In [] (exclude_dirs (merge_config args))).
  { unfold merge_config. simpl. rewrite Harg. unfold list_option.
    destruct (text ++ [44%N]) as [|x t] eqn:E.
    - destruct text; discriminate.
    - rewrite <- E. unfold comma_list.
      change [] with (strip []). apply in_map. apply split_on_trailing. }
  split; [exact Hin|].
  now apply root_exclusion_finds_nothing with (x := []).
Qed.

End CommandLine.

(** Witness of X7: [--exclude-dirs "drafts,"]. *)
Lemma trailing_comma_excludes_everything_witness :
  exclude_dirs (ConfigFileLoader.merge_config trailing_comma_args)
  = [lit "drafts"; []]
  /\ _find_markdown_files (ConfigFileLoader.merge_config trailing_comma_args)
       test_vault no_stats
     = ([], no_stats).
Proof.
  split; [reflexivity|].
  exact (proj2 (trailing_comma_excludes_everything trailing_comma_args
                  (lit "drafts") test_vault no_stats eq_refl)).
Defined.

(* ================================================================== *)
(** * Metadata codec: nothing is lost *)
(* ================================================================== *)

Section CodecPartition.

Variable L : library.

Lemma closing_index_inv (k i : nat) (lines : list str) :
  closing_index k lines = Some i ->
  exists n line,
    i = k + n
    /\ is_delimiter line = true
    /\ lines = firstn n lines ++ line :: skipn (S n) lines.
Proof.
  revert k. induction lines as [|l ls IH]; intros k H; simpl in H;
    [discriminate|].
  destruct (str_eqb (strip l) (lit "---")) eqn:E.
  - injection H as <-. exists 0, l. repeat split; [lia|exact E].
  - destruct (IH (S k) H) as [n [line [Hi [Hd Hls]]]].
    exists (S n), line. split; [lia|]. split; [exact Hd|].
    simpl. now f_equal.
Qed.

Lemma opening_line (content : str) :
  opens_block content = true ->
  exists first rest,
    splitlines content = first :: rest
    /\ (first = lit "---" ++ [LF] \/ first = lit "---" ++ [CR; LF]).
Proof.
  unfold opens_block. intros H. apply orb_true_iff in H.
  destruct H as [H|H]; apply startswith_split in H; destruct H as [t ->].
  - exists (lit "---" ++ [LF]), (splitlines t). split; [|now left].
    rewrite <- app_assoc. simpl ([LF] ++ t).
    now rewrite splitlines_linefeed.
  - exists (lit "---" ++ [CR; LF]), (splitlines t). split; [|now right].
    reflexivity.
Qed.

(** X8.  Metadata codec, partition: when [_parse_frontmatter] finds
    metadata, the text is the opening line, the block handed to the YAML
    loader, a closing line that strips to three dashes, and the body, in
    this order and with nothing between them; the metadata is what the
    loader made of the block, or the empty mapping when that is an empty
    value.  When it finds none, the body is the text. *)
Theorem parse_frontmatter_partitions (content body : str) :
  (forall v,
     _parse_frontmatter L content = Ok (Some v, body) ->
     exists first block closing loaded,
       content = first ++ block ++ closing ++ body
       /\ (first = lit "---" ++ [LF] \/ first = lit "---" ++ [CR; LF])
       /\ is_delimiter closing = true
       /\ yaml_safe_load L block = Loaded loaded
       /\ v = (if truthy loaded then loaded else VDict []))
  /\ (_parse_frontmatter L content = Ok (None, body) -> body = content).
Proof.
  split; [|apply parse_absent_body].
  intros v. unfold _parse_frontmatter.
  destruct (strip content) as [|c0 s0] eqn:Es; [discriminate|].
  destruct (startswith (lit "---" ++ [LF]) content
            || startswith (lit "---" ++ [CR; LF]) content) eqn:Eo;
    [|discriminate].
  destruct (opening_line content Eo) as [first [rest [Hlines Hfirst]]].
  rewrite Hlines. simpl skipn at 1.
  destruct (closing_index 1 rest) as [i|] eqn:Ei; [|discriminate].
  destruct (closing_index_inv _ _ _ Ei) as [n [line [Hi [Hd Hrest]]]].
  subst i.
  destruct (yaml_safe_load L _) as [loaded| |] eqn:Ey; try discriminate.
  intros H. injection H as Hv Hb.
  exists first, (List.concat (firstn n rest)), line, loaded.
  assert (Hblock : List.concat (skipn 1 (firstn (1 + n) (first :: rest)))
                   = List.concat (firstn n rest)) by reflexivity.
  rewrite Hblock in Ey.
  replace (n + 1) with (S n) in Hb by lia.
  split; [|split; [exact Hfirst|split; [exact Hd|split; [exact Ey|]]]].
  - rewrite <- (concat_splitlines content), Hlines, <- Hb.
    rewrite concat_cons. f_equal.
    rewrite Hrest at 1. rewrite concat_app, concat_cons. reflexivity.
  - now symmetry.
Qed.

Lemma no_delimiter_app_delimiter (a b : list str) (line : str) :
  is_delimiter line = true -> no_delimiter (a ++ line :: b) = false.
Proof.
  intros H. unfold no_delimiter. rewrite forallb_app. simpl.
  rewrite H. simpl. apply andb_false_r.
Qed.

(** X9.  Metadata codec, output: whatever the YAML library emits, the text
    [_reconstruct_content] builds opens a block, has a closing delimiter
    line after it, and ends with the body as given. *)
Theorem reconstructed_text_is_closed (frontmatter : pyval) (body : str) :
  opens_block (_reconstruct_content L frontmatter body) = true
  /\ unclosed (_reconstruct_content L frontmatter body) = false
  /\ endswith body (_reconstruct_content L frontmatter body) = true.
Proof.
  split; [reflexivity|]. split.
  - unfold unclosed. rewrite reconstruct_lines. simpl skipn.
    now apply no_delimiter_app_delimiter.
  - rewrite reconstruct_shape.
    rewrite !app_assoc. apply endswith_app.
Qed.

(** X10.  Reading, line ends: the text [read_text] delivers holds no
    carriage return, so of the two openings [_parse_frontmatter] accepts,
    a file read from disk can only show the one with the bare line
    feed. *)
Theorem text_read_has_no_carriage_return (fs : store) (p : path) (content : str) :
  read_text fs p = Ok content ->
  forallb (fun c => negb (N.eqb c CR)) content = true
  /\ startswith (lit "---" ++ [CR; LF]) content = false.
Proof.
  unfold read_text.
  destruct (lookup fs p) as [e|]; [|discriminate].
  destruct (e_data e) as [d|]; [|discriminate].
  intros H. injection H as <-.
  pose proof (universal_newlines_no_cr (List.length d) d (le_n _)) as Hno.
  split; [exact Hno|].
  destruct (startswith _ _) eqn:E; [|reflexivity].
  apply startswith_split in E. destruct E as [t Ht].
  rewrite Ht in Hno. vm_compute in Hno. discriminate.
Qed.

End CodecPartition.

(** Witness of X8: the note with one metadata key. *)
Lemma parse_frontmatter_partitions_witness :
  _parse_frontmatter MiniYaml.lib titled_doc
  = Ok (Some (VDict titled_metadata), titled_body)
  /\ exists first block closing loaded,
       titled_doc = first ++ block ++ closing ++ titled_body
       /\ (first = lit "---" ++ [LF] \/ first = lit "---" ++ [CR; LF])
       /\ is_delimiter closing = true
       /\ yaml_safe_load MiniYaml.lib block = Loaded loaded
       /\ VDict titled_metadata
          = (if truthy loaded then loaded else VDict []).
Proof.
  split; [reflexivity|].
  apply (proj1 (parse_frontmatter_partitions MiniYaml.lib titled_doc
                  titled_body) (VDict titled_metadata)).
  reflexivity.
Defined.

(** Witness of X10: a note stored with Windows line ends. *)
Lemma text_read_has_no_carriage_return_witness :
  startswith (lit "---" ++ [CR; LF]) crlf_doc = true
  /\ forallb (fun c => negb (N.eqb c CR)) (universal_newlines crlf_doc) = true
  /\ startswith (lit "---" ++ [CR; LF]) (universal_newlines crlf_doc) = false.
Proof.
  split; [reflexivity|].
  apply (text_read_has_no_carriage_return crlf_vault
           ([lit "notes"], lit "windows.md") (universal_newlines crlf_doc)).
  reflexivity.
Defined.

(* ================================================================== *)
(** * File processor: backups, and what a run may touch *)
(* ================================================================== *)

Section Backup.

Variable L : library.
Variable T : tables.
Variable config : Config.

(** Appending to the suffix appends to the name. *)
Lemma with_suffix_appends (name suf : str) :
  with_suffix name (suffix name ++ suf) = name ++ suf.
Proof.
  unfold with_suffix. destruct (suffix name) as [|c old] eqn:E;
    [reflexivity|].
  rewrite <- E. unfold suffix in *.
  destruct (rfind 46%N name) as [i|]; [|discriminate E].
  destruct ((0 <? i) && (i <? List.length name - 1)) eqn:Eb;
    [|discriminate E].
  apply andb_true_iff in Eb. destruct Eb as [_ Hi]. apply Nat.ltb_lt in Hi.
  rewrite length_skipn.
  replace (List.length name - (List.length name - i)) with i by lia.
  now rewrite app_assoc, firstn_skipn.
Qed.


(** X11.  Backup, name: the backup of a file lies beside it and carries
    its full name with [.bak] added ([note.md.bak], not [note.bak]); such
    a name has no markdown extension, so the walker of a later run does
    not return it. *)
Theorem backup_is_named_after_the_file (p : path) :
  backup_path p = (fst p, snd p ++ lit ".bak")
  /\ md_like (backup_path p) = false.
Proof.
  split; [|apply backup_path_not_md].
  unfold backup_path. now rewrite with_suffix_appends.
Qed.





End Backup.


(* ================================================================== *)
(** * File processor: how one file can end *)
(* ================================================================== *)

Section Outcomes.

Variable L : library.
Variable T : tables.
Variable config : Config.

Lemma search_any_raises (patterns : list Re.pattern) (s : str) (x : exn) :
  search_any L patterns s = Raise x -> x = RegexError.
Proof.
  induction patterns as [|[r|] rest IH]; simpl; try discriminate.
  - destruct (re_search L r s); [discriminate|exact IH].
  - intros H. now injection H.
Qed.

Lemma generate_heading_value_raises (p : path) (x : exn) :
  _generate_heading_value L T config p = Raise x -> x = RegexError.
Proof.
  unfold _generate_heading_value, _is_daily_note, _is_template_file.
  destruct (search_any L (DAILY_NOTE_PATTERNS T) _) as [[|]|y] eqn:Ed; simpl;
    try discriminate.
  - destruct (existsb _ (include_patterns config)); [discriminate|].
    destruct (endswith (lit "-summary") (stem (snd p))); [discriminate|].
    destruct (search_any L (TEMPLATE_PATTERNS T) _) as [[|]|z] eqn:Et;
      simpl;
      try discriminate.
    + destruct (contains _ _); [discriminate|].
      destruct (str_eqb _ _); [discriminate|].
      destruct (str_eqb _ _); [discriminate|].
      destruct (title_case config && negb (preserve_case config));
        discriminate.
    + intros H. injection H as <-. now apply search_any_raises in Et.
  - intros H. injection H as <-. now apply search_any_raises in Ed.
Qed.

Lemma parse_frontmatter_raises (content : str) (x : exn) :
  _parse_frontmatter L content = Raise x -> x = LoaderError.
Proof.
  unfold _parse_frontmatter.
  destruct (strip content); [discriminate|].
  destruct (startswith _ _ || startswith _ _); [|discriminate].
  destruct (closing_index 1 _) as [i|]; [|discriminate].
  destruct (yaml_safe_load L _) as [w| |]; try discriminate.
  intros H. now injection H.
Qed.

Lemma py_in_raises (k : str) (v : pyval) (x : exn) :
  py_in k v = Raise x -> x = TypeError.
Proof.
  destruct v; simpl; intros E; try discriminate E; now injection E.
Qed.

Lemma py_setitem_raises (k : str) (w v : pyval) (x : exn) :
  py_setitem k w v = Raise x -> x = TypeError.
Proof.
  destruct v; simpl; intros E; try discriminate E; now injection E.
Qed.

(** The exceptions of everything before the backup and the write. *)
Lemma plan_file_raises (fs : store) (p : path) (x : exn) :
  plan_file L T config fs p = Raise x ->
  x = ReadError \/ x = LoaderError \/ x = TypeError \/ x = RegexError.
Proof.
  unfold plan_file.
  destruct (read_text fs p) as [content|y] eqn:Er; cbn [bind].
  2:{ intros H. injection H as <-. unfold read_text in Er.
      destruct (lookup fs p) as [e|]; [|injection Er as <-; now left].
      destruct (e_data e); [discriminate Er|injection Er as <-; now left]. }
  destruct (_parse_frontmatter L content) as [[fm body]|y] eqn:Ep;
    cbn [bind fst snd].
  2:{ intros H. injection H as <-. apply parse_frontmatter_raises in Ep.
      tauto. }
  destruct (has_heading fm) as [b|y] eqn:Eh; cbn [bind].
  - destruct (b && skip_existing config); [discriminate|].
    destruct (_generate_heading_value L T config p) as [h|y] eqn:Eg;
      cbn [bind].
    + destruct (set_heading fm h) as [w|y] eqn:Es; cbn [bind];
        [discriminate|].
      intros H. injection H as <-. unfold set_heading in Es.
      apply py_setitem_raises in Es. tauto.
    + intros H. injection H as <-.
      apply generate_heading_value_raises in Eg. tauto.
  - intros H. injection H as <-. unfold has_heading in Eh.
    destruct fm as [v|]; [|discriminate Eh].
    destruct (truthy v); [|discriminate Eh].
    apply py_in_raises in Eh. tauto.
Qed.


Lemma parse_some_shape (content : str) (v : pyval) (body : str) :
  _parse_frontmatter L content = Ok (Some v, body) ->
  truthy v = true \/ v = VDict [].
Proof.
  unfold _parse_frontmatter.
  destruct (strip content); [discriminate|].
  destruct (startswith _ _ || startswith _ _); [|discriminate].
  destruct (closing_index 1 _) as [i|]; [|discriminate].
  destruct (yaml_safe_load L _) as [w| |]; try discriminate.
  intros H. injection H as <- _.
  destruct (truthy w) eqn:E; [now left|now right].
Qed.

(** X14.  Metadata that is no mapping: when the block loads as a string,
    a sequence, a set or a scalar, the file is never rewritten.  It is
    skipped exactly when skip-existing is on and [heading] occurs in the
    string or is an item of the sequence or set.  In every other case the
    file is counted as an error: a TypeError when the value supports no
    [in], or else when the heading is assigned, unless a pattern of the
    tables fails first. *)
Theorem non_mapping_metadata_is_never_rewritten
    (fs : store) (p : path) (content : str) (v : pyval) (body : str) :
  read_text fs p = Ok content ->
  _parse_frontmatter L content = Ok (Some v, body) ->
  (forall d, v <> VDict d) ->
  fst (try_process_file L T config fs p) = fs
  /\ (snd (try_process_file L T config fs p) = Ok SkippedExisting
      /\ skip_existing config = true
      /\ py_in (lit "heading") v = Ok true
      \/ snd (try_process_file L T config fs p) = Raise TypeError
      \/ snd (try_process_file L T config fs p) = Raise RegexError)
  /\ (py_in (lit "heading") v = Ok true ->
      skip_existing config = true ->
      snd (try_process_file L T config fs p) = Ok SkippedExisting)
  /\ (forall x,
        py_in (lit "heading") v = Raise x ->
        snd (try_process_file L T config fs p) = Raise TypeError)
  /\ (forall b,
        py_in (lit "heading") v = Ok b ->
        b && skip_existing config = false ->
        snd (try_process_file L T config fs p)
        = match _generate_heading_value L T config p with
          | Ok _ => Raise TypeError
          | Raise x => Raise x
          end).
Proof.
  intros Hread Hparse Hv.
  assert (Htruthy : truthy v = true).
  { destruct (parse_some_shape _ _ _ Hparse) as [H|H]; [exact H|].
    now destruct (Hv []). }
  rewrite try_process_file_plan. unfold plan_file.
  rewrite Hread. simpl. rewrite Hparse. simpl. rewrite Htruthy.
  assert (Hset : forall h, set_heading (Some v) h = Raise TypeError).
  { intros h. unfold set_heading.
    destruct v as [| | | | |d| |]; try reflexivity. now destruct (Hv d). }
  destruct (py_in (lit "heading") v) as [b|x] eqn:Ein; simpl.
  - destruct (b && skip_existing config) eqn:Eb.
    + apply andb_true_iff in Eb. destruct Eb as [-> Hskip].
      split; [reflexivity|]. split; [left; now repeat split|].
      split; [reflexivity|]. split; [discriminate|].
      intros b Hb. injection Hb as <-. rewrite Hskip. discriminate.
    + assert (Hout :
        snd (match
               (heading_value <- _generate_heading_value L T config p ;;
                frontmatter <- set_heading (Some v) heading_value ;;
                Ok (Some (heading_value,
                          _reconstruct_content L frontmatter body)))
             with
             | Ok (Some (heading_value, new_content)) =>
                 if negb (dry_run config)
                 then
                   match
                     (if backup config
                      then copy2 fs p (backup_path p) else Ok fs)
                   with
                   | Ok fs1 =>
                       match write_text fs1 p new_content with
                       | Ok fs2 => (fs2, Ok (Processed heading_value))
                       | Raise e => (fs1, Raise e)
                       end
                   | Raise e => (fs, Raise e)
                   end
                 else (fs, Ok (Processed heading_value))
             | Ok None => (fs, Ok SkippedExisting)
             | Raise e => (fs, Raise e)
             end)
        = match _generate_heading_value L T config p with
          | Ok _ => Raise TypeError
          | Raise x => Raise x
          end).
      { destruct (_generate_heading_value L T config p) as [h|y]; simpl;
          [now rewrite Hset|reflexivity]. }
      split.
      { destruct (_generate_heading_value L T config p) as [h|y]; simpl;
          [now rewrite Hset|reflexivity]. }
      split.
      { rewrite Hout.
        destruct (_generate_heading_value L T config p) as [h|y] eqn:Eg.
        - right. now left.
        - apply generate_heading_value_raises in Eg. subst y.
          right. now right. }
      split.
      { intros Hb Hskip. injection Hb as ->. rewrite Hskip in Eb.
        discriminate Eb. }
      split; [discriminate|].
      intros b' Hb' _. exact Hout.
  - assert (x = TypeError) as -> by (now apply py_in_raises in Ein).
    split; [reflexivity|]. split; [right; now left|].
    split; [discriminate|]. split; [reflexivity|discriminate].
Qed.

Lemma plan_file_dry (b : bool) (fs : store) (p : path) :
  plan_file L T (with_dry_run b config) fs p = plan_file L T config fs p.
Proof. reflexivity. Qed.

(** X15.  Dry run as a preview: for one file on one vault, the dry run
    changes nothing, never reports an error of the backup or of the
    write, and reports what the real run reports, unless the real run
    fails at the backup or at the write, which the dry run lists as
    processed. *)
Theorem dry_run_previews_the_outcome (fs : store) (p : path) :
  fst (try_process_file L T (with_dry_run true config) fs p) = fs
  /\ snd (try_process_file L T (with_dry_run true config) fs p)
     <> Raise BackupError
  /\ snd (try_process_file L T (with_dry_run true config) fs p)
     <> Raise WriteError
  /\ (snd (try_process_file L T (with_dry_run false config) fs p)
      = snd (try_process_file L T (with_dry_run true config) fs p)
      \/ (exists h,
            snd (try_process_file L T (with_dry_run true config) fs p)
            = Ok (Processed h))
         /\ (snd (try_process_file L T (with_dry_run false config) fs p)
             = Raise BackupError
             \/ snd (try_process_file L T (with_dry_run false config) fs p)
                = Raise WriteError)).
Proof.
  rewrite !try_process_file_plan, !plan_file_dry.
  cbn [dry_run with_dry_run backup negb].
  destruct (plan_file L T config fs p) as [[[h out]|]|x] eqn:Hplan.
  - split; [reflexivity|]. split; [discriminate|]. split; [discriminate|].
    destruct (if backup config then copy2 fs p (backup_path p) else Ok fs)
      as [fs1|x] eqn:Ecp.
    + destruct (write_text fs1 p out) as [fs2|x] eqn:Ew; [now left|].
      right. split; [now exists h|]. right. simpl.
      unfold write_text in Ew.
      destruct (lookup fs1 p) as [e|]; [|discriminate Ew].
      destruct (e_writable e); [discriminate Ew|]. now injection Ew as <-.
    + right. split; [now exists h|]. left. simpl.
      destruct (backup config); [|discriminate Ecp].
      unfold copy2 in Ecp.
      destruct (lookup fs p) as [e|]; [|now injection Ecp as <-].
      destruct (e_data e) as [d|]; [|now injection Ecp as <-].
      destruct (lookup fs (backup_path p)) as [t|]; [|discriminate Ecp].
      destruct (e_writable t); [discriminate Ecp|]. now injection Ecp as <-.
  - split; [reflexivity|]. split; [discriminate|]. split; [discriminate|].
    now left.
  - split; [reflexivity|].
    destruct (plan_file_raises _ _ _ Hplan) as [E|[E|[E|E]]]; subst x;
      (split; [discriminate|]); (split; [discriminate|]); now left.
Qed.

End Outcomes.


(** Witness of X14: a metadata block that is a sentence.  Without the
    word [heading] in it the file is an error; with it, the file is
    skipped. *)
Lemma non_mapping_metadata_is_never_rewritten_witness :
  _parse_frontmatter ScalarYaml.lib heading_sentence_doc
  = Ok (Some (VStr (lit "A heading for later")), lit "Body" ++ [LF])
  /\ snd (try_process_file ScalarYaml.lib builtin plain_config sentence_vault
            ([lit "notes"], lit "meeting.md"))
     = Raise TypeError
  /\ snd (try_process_file ScalarYaml.lib builtin plain_config sentence_vault
            ([lit "notes"], lit "later.md"))
     = Ok SkippedExisting
  /\ fst (try_process_file ScalarYaml.lib builtin plain_config sentence_vault
            ([lit "notes"], lit "later.md"))
     = sentence_vault.
Proof.
  assert (Hno : forall d, VStr (lit "A heading for later") <> VDict d)
    by (intros d; discriminate).
  destruct (non_mapping_metadata_is_never_rewritten ScalarYaml.lib
              builtin plain_config sentence_vault
              ([lit "notes"], lit "later.md") heading_sentence_doc
              (VStr (lit "A heading for later"))
              (lit "Body" ++ [LF]) eq_refl eq_refl Hno)
    as [Hstore [_ [Hskip _]]].
  split; [reflexivity|]. split; [reflexivity|].
  split; [exact (Hskip eq_refl eq_refl)|exact Hstore].
Defined.

(* ================================================================== *)
(** * The run: what it may touch, and how it counts *)
(* ================================================================== *)

Section VaultFrame.

Variable L : library.
Variable T : tables.
Variable config : Config.






Lemma process_file_counters (s : state) (p : path) :
  processed (st_stats (_process_file L T config s p))
  + skipped_existing (st_stats (_process_file L T config s p))
  + errors (st_stats (_process_file L T config s p))
  = S (processed (st_stats s) + skipped_existing (st_stats s)
       + errors (st_stats s))
  /\ skipped_special (st_stats (_process_file L T config s p))
     = skipped_special (st_stats s).
Proof.
  unfold _process_file.
  destruct (try_process_file L T config (st_store s) p) as [fs [[|h]|e]];
    simpl; split; lia.
Qed.

Lemma process_each_counters (files : list path) :
  forall i total s,
    processed (st_stats (process_each L T config i total files s))
    + skipped_existing (st_stats (process_each L T config i total files s))
    + errors (st_stats (process_each L T config i total files s))
    = processed (st_stats s) + skipped_existing (st_stats s)
      + errors (st_stats s) + List.length files
    /\ skipped_special (st_stats (process_each L T config i total files s))
       = skipped_special (st_stats s).
Proof.
  induction files as [|p files IH]; intros i total s; simpl; [lia|].
  set (s0 := if verbose config
             then log (DebugProcessing i total p) s else s).
  assert (Hstats : st_stats s0 = st_stats s)
    by (unfold s0; now destruct (verbose config)).
  destruct (IH (S i) total (_process_file L T config s0 p)) as [H1 H2].
  destruct (process_file_counters s0 p) as [G1 G2].
  rewrite Hstats in G1, G2. lia.
Qed.

(** X18.  Counters, one by one: the loop counts every file the walker
    returned as processed, skipped or failed and never touches the
    counter of special files, which the walker alone sets. *)
Theorem counters_account_for_every_file (fs : store) :
  processed (st_stats (run L T config fs))
  + skipped_existing (st_stats (run L T config fs))
  + errors (st_stats (run L T config fs))
  = List.length (candidates config fs)
  /\ skipped_special (st_stats (run L T config fs))
     = List.length (filter (is_special config) fs).
Proof.
  unfold run. rewrite process_vault_unfold. cbv zeta.
  cbn [st_store st_stats fresh_state].
  destruct (skipped_special_iter
              (List.length (filter (is_special config) fs)) no_stats)
    as [G1 [G2 [G3 G4]]].
  destruct (Nat.eqb (List.length (candidates config fs)) 0) eqn:E0.
  - apply Nat.eqb_eq in E0. rewrite E0.
    destruct (dry_run config); cbn [st_stats log with_stats];
      rewrite G1, G2, G3, G4; simpl; lia.
  - rewrite print_summary_stats.
    match goal with
    | |- context [process_each L T config 1 ?n ?files ?s] =>
        destruct (process_each_counters files 1 n s) as [H1 H2];
        assert (Hs : st_stats s
                     = Nat.iter (List.length (filter (is_special config) fs))
                         count_skipped_special no_stats)
          by (now destruct (dry_run config))
    end.
    rewrite Hs in H1, H2. rewrite G1, G2, G3, G4 in *. simpl in *. lia.
Qed.

End VaultFrame.


(* ================================================================== *)
(** * The run: options that change the log only *)
(* ================================================================== *)

Section Verbose.

Variable L : library.
Variable T : tables.
Variable config : Config.

Lemma process_file_verbose (b : bool) (s : state) (p : path) :
  _process_file L T (with_verbose b config) s p = _process_file L T config s p.
Proof. reflexivity. Qed.

Lemma process_file_log (s : state) (p : path) :
  exists ev,
    not_debug ev = true
    /\ st_log (_process_file L T config s p) = st_log s ++ [ev]
    /\ forall s',
         st_store s' = st_store s ->
         st_stats s' = st_stats s ->
         st_store (_process_file L T config s' p)
         = st_store (_process_file L T config s p)
         /\ st_stats (_process_file L T config s' p)
            = st_stats (_process_file L T config s p)
         /\ st_log (_process_file L T config s' p) = st_log s' ++ [ev].
Proof.
  unfold _process_file.
  destruct (try_process_file L T config (st_store s) p) as [fs [[|h]|e]]
    eqn:Etry; eexists; (split; [|split; [reflexivity|]]);
    try reflexivity; intros s' Hstore Hstats; rewrite Hstore, Etry;
    cbn [st_store st_stats st_log with_stats log with_store];
    now rewrite Hstats.
Qed.

Lemma process_each_verbose (files : list path) :
  forall i total s s',
    st_store s = st_store s' ->
    st_stats s = st_stats s' ->
    filter not_debug (st_log s) = st_log s' ->
    st_store (process_each L T (with_verbose true config) i total files s)
    = st_store (process_each L T (with_verbose false config) i total files s')
    /\ st_stats (process_each L T (with_verbose true config) i total files s)
       = st_stats
           (process_each L T (with_verbose false config) i total files s')
    /\ filter not_debug
         (st_log (process_each L T (with_verbose true config) i total files s))
       = st_log
           (process_each L T (with_verbose false config) i total files s').
Proof.
  induction files as [|p files IH]; intros i total s s' Hstore Hstats Hlog;
    [now repeat split|].
  cbn [process_each verbose with_verbose].
  rewrite !process_file_verbose.
  destruct (process_file_log s' p) as [ev [Hev [Hlog' Hsame]]].
  destruct (Hsame (log (DebugProcessing i total p) s))
    as [H1 [H2 H3]]; [exact Hstore|exact Hstats|].
  apply IH; [exact H1|exact H2|].
  rewrite H3, Hlog'. cbn [st_log log].
  rewrite !filter_app. cbn [filter not_debug]. rewrite Hev, Hlog.
  now rewrite app_nil_r.
Qed.

(** X19.  Verbose: the option changes neither what the run does to the
    files nor what it counts: the files and the counters after the run
    are the same with it and without it. *)
Theorem verbose_changes_neither_files_nor_counters (fs : store) :
  st_store (run L T (with_verbose true config) fs)
  = st_store (run L T (with_verbose false config) fs)
  /\ st_stats (run L T (with_verbose true config) fs)
     = st_stats (run L T (with_verbose false config) fs).
Proof.
  unfold run. rewrite !process_vault_unfold. cbv zeta.
  cbn [dry_run with_verbose st_store st_stats fresh_state].
  change (candidates (with_verbose true config) fs)
    with (candidates config fs).
  change (candidates (with_verbose false config) fs)
    with (candidates config fs).
  change (filter (is_special (with_verbose true config)))
    with (filter (is_special config)).
  change (filter (is_special (with_verbose false config)))
    with (filter (is_special config)).
  destruct (Nat.eqb (List.length (candidates config fs)) 0).
  - now destruct (dry_run config).
  - unfold _print_summary.
    match goal with
    | |- context [process_each L T (with_verbose true config) 1 ?n ?files ?s] =>
        destruct (process_each_verbose files 1 n s s)
          as [H1 [H2 H3]];
        [reflexivity|reflexivity|now destruct (dry_run config)|]
    end.
    cbn [st_store st_stats st_log log]. now rewrite <- H1, <- H2.
Qed.

End Verbose.

(* ================================================================== *)
(** * Substrings, and what [re.search] finds *)
(* ================================================================== *)

Section Searching.

Lemma contains_nil (s : str) : contains [] s = true.
Proof. destruct s; reflexivity. Qed.

Lemma startswith_app_r (sub s b : str) :
  startswith sub s = true -> startswith sub (s ++ b) = true.
Proof.
  revert s. induction sub as [|x sub IH]; intros [|y s] H; simpl in *;
    try reflexivity; try discriminate.
  apply andb_true_iff in H. destruct H as [Hxy H].
  rewrite Hxy. simpl. now apply IH.
Qed.

Lemma contains_app_r (sub s b : str) :
  contains sub s = true -> contains sub (s ++ b) = true.
Proof.
  induction s as [|c s IH]; intros H.
  - destruct sub; [apply contains_nil|discriminate H].
  - simpl in H. apply orb_true_iff in H. destruct H as [H|H].
    + apply (startswith_app_r _ (c :: s) b) in H.
      change ((c :: s) ++ b) with (c :: s ++ b) in *.
      simpl. simpl in H. now rewrite H.
    + simpl. rewrite (IH H). apply orb_true_r.
Qed.

Lemma contains_app_l (a sub s : str) :
  contains sub s = true -> contains sub (a ++ s) = true.
Proof.
  intros H. induction a as [|c a IH]; simpl; [exact H|].
  rewrite IH. apply orb_true_r.
Qed.

Lemma join_cons2 (sep p q : str) (rest : list str) :
  join sep (p :: q :: rest) = p ++ sep ++ join sep (q :: rest).
Proof. reflexivity. Qed.

(** A part of a joined path stands in it as written, followed by the
    separator when it is not the last one. *)
Lemma join_mid (sep : str) (a : list str) (d : str) (b : list str) :
  exists pre post,
    join sep (a ++ d :: b) = pre ++ d ++ post
    /\ (b <> [] -> exists post', post = sep ++ post').
Proof.
  induction a as [|x a IH].
  - destruct b as [|q b].
    + exists [], []. split; [simpl; now rewrite app_nil_r|congruence].
    + exists [], (sep ++ join sep (q :: b)). split; [reflexivity|].
      intros _. now eexists.
  - destruct IH as [pre [post [H Hb]]].
    exists (x ++ sep ++ pre), post. split; [|exact Hb].
    change ((x :: a) ++ d :: b) with (x :: (a ++ d :: b)).
    destruct (a ++ d :: b) as [|y l] eqn:E; [now destruct a|].
    rewrite join_cons2, H. now rewrite <- !app_assoc.
Qed.

Lemma str_of_parts_join (parts : list str) :
  parts <> [] -> str_of_parts parts = join (lit "/") parts.
Proof. destruct parts; [congruence|reflexivity]. Qed.

Lemma replace_char_app (a b : char) (x y : str) :
  replace_char a b (x ++ y) = replace_char a b x ++ replace_char a b y.
Proof. apply map_app. Qed.

(** A directory name stands in the relative path of whatever lies in or
    below the directory, with a slash after it. *)
Lemma rel_str_mid (dir : list str) (rest : list str) (d : str) :
  In d dir ->
  rest <> [] ->
  exists pre post,
    replace_char BACKSLASH 47%N (str_of_parts (dir ++ rest))
    = pre ++ replace_char BACKSLASH 47%N d ++ [47%N] ++ post.
Proof.
  intros Hin Hrest. apply in_split in Hin. destruct Hin as [a [b ->]].
  rewrite str_of_parts_join by (now destruct a).
  rewrite <- app_assoc. change ((d :: b) ++ rest) with (d :: (b ++ rest)).
  destruct (join_mid (lit "/") a d (b ++ rest)) as [pre [post [H Hpost]]].
  destruct Hpost as [post' ->]; [now destruct b, rest|].
  rewrite H, !replace_char_app.
  now exists (replace_char BACKSLASH 47%N pre),
             (replace_char BACKSLASH 47%N post').
Qed.

Lemma rel_str_dir (dir : list str) (d : str) :
  In d dir ->
  exists pre post,
    replace_char BACKSLASH 47%N (str_of_parts dir)
    = pre ++ replace_char BACKSLASH 47%N d ++ post.
Proof.
  intros Hin. apply in_split in Hin. destruct Hin as [a [b ->]].
  rewrite str_of_parts_join by (now destruct a).
  destruct (join_mid (lit "/") a d b) as [pre [post [H _]]].
  rewrite H, !replace_char_app.
  now exists (replace_char BACKSLASH 47%N pre),
             (replace_char BACKSLASH 47%N post).
Qed.

Lemma app_regroup (A : Type) (a b c d e : list A) :
  a ++ b ++ c ++ d ++ e = (a ++ b) ++ (c ++ d) ++ e.
Proof. now rewrite <- !app_assoc. Qed.

(** A text whose lower-casing holds no backslash holds none. *)
Lemma replace_backslash_idle (x : str) :
  forallb (fun c => negb (N.eqb c BACKSLASH)) (lower x) = true ->
  replace_char BACKSLASH 47%N x = x.
Proof.
  induction x as [|c x IH]; intros H; [reflexivity|].
  simpl in H. apply andb_true_iff in H. destruct H as [Hc Hx].
  simpl. rewrite (IH Hx).
  destruct (N.eqb c BACKSLASH) eqn:Ec; [|reflexivity].
  apply N.eqb_eq in Ec. subst c. vm_compute in Hc. discriminate Hc.
Qed.

(** [nullable], [deriv] and the two searches find every match. *)
Lemma matches_nil_nullable (r : Re.regex) (s : str) :
  Re.matches_i r s -> s = [] -> Re.nullable r = true.
Proof.
  induction 1 as [ | c y Hc | p y Hp | r1 r2 s1 s2 H1 IH1 H2 IH2
                 | r1 r2 s0 H IH | r1 r2 s0 H IH
                 | r | r s1 s2 H1 IH1 H2 IH2 ];
    intros E; simpl; try reflexivity; try discriminate.
  - apply app_eq_nil in E. destruct E as [E1 E2].
    now rewrite (IH1 E1), (IH2 E2).
  - now rewrite (IH E).
  - rewrite (IH E). apply orb_true_r.
Qed.

Lemma matches_cat (r1 r2 : Re.regex) (s1 s2 : str) :
  Re.matches_i r1 s1 -> Re.matches_i r2 s2 ->
  Re.matches_i (Re.cat r1 r2) (s1 ++ s2).
Proof.
  intros H1 H2.
  destruct r1; destruct r2; simpl;
    try (inversion H1; fail); try (inversion H2; fail);
    try (inversion H1; subst; exact H2);
    now constructor.
Qed.

Lemma matches_alt_l (r1 r2 : Re.regex) (s : str) :
  Re.matches_i r1 s -> Re.matches_i (Re.alt r1 r2) s.
Proof.
  intros H. destruct r1; destruct r2; simpl;
    try (inversion H; fail); try assumption; now apply Re.MAltL.
Qed.

Lemma matches_alt_r (r1 r2 : Re.regex) (s : str) :
  Re.matches_i r2 s -> Re.matches_i (Re.alt r1 r2) s.
Proof.
  intros H. destruct r1; destruct r2; simpl;
    try (inversion H; fail); try assumption; now apply Re.MAltR.
Qed.

Lemma matches_deriv (r : Re.regex) (w : str) :
  Re.matches_i r w ->
  forall x s, w = x :: s -> Re.matches_i (Re.deriv x r) s.
Proof.
  induction 1 as [ | c y Hc | p y Hp | r1 r2 s1 s2 H1 IH1 H2 IH2
                 | r1 r2 s0 H IH | r1 r2 s0 H IH
                 | r | r s1 s2 H1 IH1 H2 IH2 ];
    intros x s E.
  - discriminate.
  - injection E as -> <-. simpl. rewrite Hc. constructor.
  - injection E as -> <-. simpl. rewrite Hp. constructor.
  - simpl. destruct s1 as [|a s1].
    + simpl in E. subst s2.
      rewrite (matches_nil_nullable _ _ H1 eq_refl).
      apply matches_alt_r. now apply IH2.
    + injection E as -> <-. apply matches_alt_l.
      apply matches_cat; [now apply IH1|assumption].
  - simpl. apply matches_alt_l. now apply IH.
  - simpl. apply matches_alt_r. now apply IH.
  - discriminate.
  - destruct s1 as [|a s1].
    + simpl in E. now apply IH2.
    + injection E as -> <-. simpl.
      apply matches_cat; [now apply IH1|assumption].
Qed.

Lemma match_prefix_unfold (r : Re.regex) (s : str) :
  Re.match_prefix r s
  = Re.nullable r
    || match s with
       | [] => false
       | x :: s' => Re.match_prefix (Re.deriv x r) s'
       end.
Proof. destruct s; reflexivity. Qed.

Lemma search_i_unfold (r : Re.regex) (s : str) :
  Re.search_i r s
  = Re.match_prefix r s
    || match s with
       | [] => false
       | _ :: s' => Re.search_i r s'
       end.
Proof. destruct s; reflexivity. Qed.

Lemma match_prefix_complete (w : str) :
  forall r rest, Re.matches_i r w -> Re.match_prefix r (w ++ rest) = true.
Proof.
  induction w as [|x w IH]; intros r rest H; rewrite match_prefix_unfold.
  - now rewrite (matches_nil_nullable _ _ H eq_refl).
  - change ((x :: w) ++ rest) with (x :: (w ++ rest)). cbv iota.
    rewrite (IH _ _ (matches_deriv _ _ H _ _ eq_refl)). apply orb_true_r.
Qed.

Lemma search_complete (r : Re.regex) (a w b : str) :
  Re.matches_i r w -> Re.search_i r (a ++ w ++ b) = true.
Proof.
  intros H. induction a as [|c a IH]; rewrite search_i_unfold.
  - simpl app. now rewrite (match_prefix_complete w r b H).
  - change ((c :: a) ++ w ++ b) with (c :: (a ++ w ++ b)). cbv iota.
    rewrite IH. apply orb_true_r.
Qed.

Lemma matches_chars (s x : str) :
  lower x = lower s -> Re.matches_i (Re.chars s) x.
Proof.
  revert x. induction s as [|c s IH]; intros [|y x] E; simpl in *;
    try discriminate.
  - constructor.
  - injection E as Ec Es. change (y :: x) with ([y] ++ x). constructor.
    + constructor. unfold Re.chr_matches_i. now apply N.eqb_eq.
    + now apply IH.
Qed.

Lemma search_any_found (L : library) (r : Re.regex)
    (before after : list Re.pattern) (s : str) :
  forallb (fun p => match p with Re.Pat _ => true | Re.BadPattern => false end)
    before = true ->
  Re.search_i r s = true ->
  search_any L (before ++ Re.Pat r :: after) s = Ok true.
Proof.
  induction before as [|[q|] before IH]; simpl; intros Hc Hs.
  - now rewrite (re_search_finds L r s Hs).
  - destruct (re_search L q s); [reflexivity|now apply IH].
  - discriminate.
Qed.

(** On an ASCII path, with ASCII patterns, every library finds what the
    reference engine finds: the sample runs speak for all of them. *)
Lemma search_any_ascii (L : library) (patterns : list Re.pattern) (s : str) :
  forallb (fun p => match p with
                    | Re.Pat r => Re.ascii r
                    | Re.BadPattern => true
                    end) patterns = true ->
  is_ascii s = true ->
  search_any L patterns s = search_any MiniYaml.lib patterns s.
Proof.
  intros Hp Hs. induction patterns as [|[r|] rest IH]; simpl in *;
    try reflexivity.
  apply andb_true_iff in Hp. destruct Hp as [Hr Hrest].
  rewrite (re_search_ascii L r s Hr Hs). now rewrite (IH Hrest).
Qed.

(** A directory name ending in [word], in any case, makes the pattern
    [word[/\\]] match the relative path of every file below it. *)
Lemma directory_pattern_matches (word : string) (dir : list str)
    (name d : str) :
  forallb (fun c => negb (N.eqb c BACKSLASH)) (lit word) = true ->
  lower (lit word) = lit word ->
  In d dir ->
  endswith (lit word) (lower d) = true ->
  Re.search_i (Re.seq [Re.text word; Re.sep])
    (replace_char BACKSLASH 47%N (str_of_parts (dir ++ [name]))) = true.
Proof.
  intros Hno Hlow Hin Hend.
  destruct (rel_str_mid dir [name] d Hin) as [pre [post Hrel]];
    [discriminate|].
  apply endswith_split in Hend. destruct Hend as [t Ht].
  apply map_eq_app in Ht. destruct Ht as [d0 [x [-> [_ Hx]]]].
  rewrite Hrel, replace_char_app.
  rewrite (replace_backslash_idle x)
    by (unfold lower; now rewrite Hx).
  rewrite <- !app_assoc, app_regroup.
  apply search_complete. simpl.
  constructor.
  - apply matches_chars. unfold lower at 1. now rewrite Hx, Hlow.
  - change [47%N] with ([47%N] ++ []). constructor; [|constructor].
    constructor. reflexivity.
Qed.

(** X21.  Daily notes by directory: a file in or below a directory whose
    name ends in [journal] or in [daily-notes], in any case and at any
    depth, gets the daily-note heading, whatever the options and the
    file's own name, and whatever patterns a configuration file has
    appended to the built-in ones. *)
Theorem journal_directory_makes_daily_notes
    (L : library) (T : tables) (config : Config)
    (extra : list Re.pattern) (p : path) (d : str) :
  DAILY_NOTE_PATTERNS T = DAILY_NOTE_PATTERNS_default ++ extra ->
  In d (fst p) ->
  endswith (lit "journal") (lower d) = true
  \/ endswith (lit "daily-notes") (lower d) = true ->
  _generate_heading_value L T config p
  = Ok (lit "Daily Note " ++ stem (snd p)).
Proof.
  intros HT Hin Hend.
  assert (Hfound : search_any L (DAILY_NOTE_PATTERNS T)
                     (replace_char BACKSLASH 47%N
                        (str_of_parts (fst p ++ [snd p]))) = Ok true).
  { rewrite HT. destruct Hend as [Hend|Hend].
    - apply (search_any_found L _
               (firstn 3 DAILY_NOTE_PATTERNS_default) extra);
        [reflexivity|].
      now apply (directory_pattern_matches "journal" (fst p) (snd p) d).
    - apply (search_any_found L _
               (firstn 2 DAILY_NOTE_PATTERNS_default)
               (skipn 3 DAILY_NOTE_PATTERNS_default ++ extra));
        [reflexivity|].
      now apply (directory_pattern_matches "daily-notes" (fst p) (snd p) d). }
  unfold _generate_heading_value, _is_daily_note.
  now rewrite Hfound.
Qed.

(** X22.  Exclusion by substring: an exclusion need not be a directory
    name; a directory is excluded as soon as the exclusion occurs inside
    the name of the directory or of one above it. *)
Theorem exclusion_is_by_substring
    (config : Config) (x d : str) (dir : list str) :
  In x (exclude_dirs config) ->
  In d dir ->
  contains x (replace_char BACKSLASH 47%N d) = true ->
  _should_exclude_directory config dir = true.
Proof.
  intros Hx Hd Hc. unfold _should_exclude_directory.
  destruct (mem (lit ".obsidian") dir); [reflexivity|].
  apply existsb_exists. exists x. split; [exact Hx|].
  destruct (rel_str_dir dir d Hd) as [pre [post ->]].
  apply contains_app_l. now apply contains_app_r.
Qed.

End Searching.

(** Witness of X21: [Photo-Journal/2024/trip.md]. *)
Lemma journal_directory_makes_daily_notes_witness :
  In (lit "Photo-Journal") (fst travel_note)
  /\ endswith (lit "journal") (lower (lit "Photo-Journal")) = true
  /\ _generate_heading_value MiniYaml.lib builtin plain_config travel_note
     = Ok (lit "Daily Note trip").
Proof.
  assert (Hin : In (lit "Photo-Journal") (fst travel_note)) by (now left).
  split; [exact Hin|]. split; [reflexivity|].
  apply (journal_directory_makes_daily_notes MiniYaml.lib builtin
           plain_config [] travel_note (lit "Photo-Journal") eq_refl Hin).
  left. reflexivity.
Defined.

(** Witness of X22: the exclusion [archive] and the directory
    [work/99-archive-old]. *)
Lemma exclusion_is_by_substring_witness :
  In (lit "archive") (exclude_dirs archive_trash_config)
  /\ _should_exclude_directory archive_trash_config
       [lit "work"; lit "99-archive-old"] = true.
Proof.
  assert (Hx : In (lit "archive") (exclude_dirs archive_trash_config))
    by (now left).
  split; [exact Hx|].
  apply (exclusion_is_by_substring archive_trash_config (lit "archive")
           (lit "99-archive-old") [lit "work"; lit "99-archive-old"] Hx).
  - right. now left.
  - reflexivity.
Defined.

(* ================================================================== *)
(** * Title case: the shape of the result *)
(* ================================================================== *)

Section TitleCaseShape.

Variable T : tables.

Lemma no_separator_upper (c : char) :
  no_separator c = true -> no_separator (upper_char c) = true.
Proof.
  unfold no_separator, upper_char, is_lower_ascii. intros H.
  destruct ((97 <=? c) && (c <=? 122))%N eqn:E; [|exact H].
  apply andb_true_iff in E. destruct E as [E1 E2].
  apply N.leb_le in E1, E2.
  apply andb_true_iff; split; apply negb_true_iff, N.eqb_neq; lia.
Qed.

Lemma no_separator_lower (c : char) :
  no_separator c = true -> no_separator (lower_char c) = true.
Proof.
  unfold no_separator, lower_char, is_upper_ascii. intros H.
  destruct ((65 <=? c) && (c <=? 90))%N eqn:E; [|exact H].
  apply andb_true_iff in E. destruct E as [E1 E2].
  apply N.leb_le in E1, E2.
  apply andb_true_iff; split; apply negb_true_iff, N.eqb_neq; lia.
Qed.

Lemma forallb_map_keeps (P : char -> bool) (f : char -> char) (s : str) :
  (forall c, P c = true -> P (f c) = true) ->
  forallb P s = true -> forallb P (map f s) = true.
Proof.
  intros Hf. induction s as [|c s IH]; simpl; [reflexivity|].
  intros H. apply andb_true_iff in H. destruct H as [Hc Hs].
  now rewrite (Hf c Hc), (IH Hs).
Qed.

Lemma forallb_rev_true (P : char -> bool) (s : str) :
  forallb P s = true -> forallb P (rev s) = true.
Proof.
  rewrite !forallb_forall. intros H x Hx. apply H. now apply in_rev.
Qed.

Lemma forallb_lstrip (P : char -> bool) (s : str) :
  forallb P s = true -> forallb P (lstrip s) = true.
Proof.
  induction s as [|c s IH]; simpl; [reflexivity|]. intros H.
  destruct (isspace c); [|exact H].
  apply andb_true_iff in H. now apply IH.
Qed.

Lemma replaced_has_no_separator (text : str) :
  forallb no_separator
    (replace_char 95%N SP (replace_char 45%N SP text)) = true.
Proof.
  induction text as [|c text IH]; simpl; [reflexivity|].
  rewrite IH, andb_true_r. unfold no_separator.
  destruct (N.eqb_spec c 45%N) as [->|H45]; [reflexivity|].
  destruct (N.eqb_spec c 95%N) as [->|H95]; [reflexivity|].
  apply andb_true_iff; split; apply negb_true_iff, N.eqb_neq; assumption.
Qed.

Lemma sub_org_prefix_keeps (P : char -> bool) (text : str) :
  forallb P text = true -> forallb P (sub_org_prefix text) = true.
Proof.
  intros H. unfold sub_org_prefix.
  destruct text as [|d1 [|d2 [|h rest]]]; try exact H.
  destruct (is_digit_ascii d1 && is_digit_ascii d2 && N.eqb h 45%N);
    [|exact H].
  apply forallb_lstrip. simpl in H.
  apply andb_true_iff in H. destruct H as [_ H].
  apply andb_true_iff in H. destruct H as [_ H].
  apply andb_true_iff in H. now destruct H.
Qed.

Lemma split_from_keeps (P : char -> bool) (s : str) :
  forall cur,
    forallb P cur = true -> forallb P s = true ->
    forallb (forallb P) (split_from cur s) = true.
Proof.
  induction s as [|c s IH]; intros cur Hcur Hs; simpl.
  - destruct cur as [|x cur]; [reflexivity|].
    cbn [forallb]. now rewrite (forallb_rev_true P (x :: cur) Hcur).
  - simpl in Hs. apply andb_true_iff in Hs. destruct Hs as [Hc Hs].
    destruct (isspace c).
    + destruct cur as [|x cur]; [now apply IH|].
      cbn [forallb]. rewrite (forallb_rev_true P (x :: cur) Hcur).
      now apply IH.
    + apply IH; [|exact Hs]. simpl. now rewrite Hc, Hcur.
Qed.

Lemma join_keeps (P : char -> bool) (sep : str) (parts : list str) :
  forallb P sep = true ->
  forallb (forallb P) parts = true ->
  forallb P (join sep parts) = true.
Proof.
  intros Hsep. induction parts as [|p parts IH]; intros H; [reflexivity|].
  simpl in H. apply andb_true_iff in H. destruct H as [Hp Hr].
  destruct parts as [|q parts]; [exact Hp|].
  rewrite join_cons2, !forallb_app, Hp, Hsep. simpl. now apply IH.
Qed.

Lemma title_word_keeps (word : str) :
  forallb no_separator word = true ->
  forallb no_separator (title_word T word) = true.
Proof.
  intros H. unfold title_word.
  destruct (mem (upper word) (PRESERVE_TERMS T)).
  - apply forallb_map_keeps; [apply no_separator_upper|exact H].
  - destruct (mem word (PRESERVE_TERMS T)); [exact H|].
    destruct word as [|c word]; [reflexivity|]. simpl in *.
    apply andb_true_iff in H. destruct H as [Hc Hw].
    rewrite (no_separator_upper c Hc). simpl.
    apply forallb_map_keeps; [apply no_separator_lower|exact Hw].
Qed.

(** X20.  Title case, shape of the result: whatever the text and the
    preserved terms, the result holds neither a hyphen nor an
    underscore. *)
Theorem title_case_leaves_no_separator (text : str) :
  forallb no_separator (_to_title_case T text) = true.
Proof.
  unfold _to_title_case. apply join_keeps; [reflexivity|].
  assert (Hwords : forallb (forallb no_separator)
                     (split (sub_org_prefix
                               (replace_char 95%N SP
                                  (replace_char 45%N SP text)))) = true).
  { unfold split. apply split_from_keeps; [reflexivity|].
    apply sub_org_prefix_keeps, replaced_has_no_separator. }
  revert Hwords. generalize (split (sub_org_prefix
                               (replace_char 95%N SP
                                  (replace_char 45%N SP text)))).
  induction l as [|w l IH]; simpl; [reflexivity|]. intros H.
  apply andb_true_iff in H. destruct H as [Hw Hl].
  now rewrite (title_word_keeps w Hw), (IH Hl).
Qed.

End TitleCaseShape.

(* ================================================================== *)
(** * Vault walker: the listing order does not matter *)
(* ================================================================== *)

Section ListingOrder.

Lemma str_ltb_trans (a b c : str) :
  str_ltb a b = true -> str_ltb b c = true -> str_ltb a c = true.
Proof.
  revert b c. induction a as [|x a IH]; intros [|y b] [|z c] Hab Hbc;
    simpl in *; try reflexivity; try discriminate.
  apply orb_true_iff in Hab. apply orb_true_iff in Hbc.
  apply orb_true_iff.
  destruct Hab as [Hab|Hab], Hbc as [Hbc|Hbc].
  - left. apply N.ltb_lt in Hab, Hbc. apply N.ltb_lt. lia.
  - apply andb_true_iff in Hbc. destruct Hbc as [E _].
    apply N.eqb_eq in E. subst z. now left.
  - apply andb_true_iff in Hab. destruct Hab as [E _].
    apply N.eqb_eq in E. subst y. now left.
  - apply andb_true_iff in Hab. destruct Hab as [E1 Hab].
    apply andb_true_iff in Hbc. destruct Hbc as [E2 Hbc].
    apply N.eqb_eq in E1, E2. subst y z. right.
    rewrite N.eqb_refl. simpl. now apply (IH b c).
Qed.

Lemma str_ltb_total (a b : str) :
  str_ltb a b = false -> str_ltb b a = false -> a = b.
Proof.
  revert b. induction a as [|x a IH]; intros [|y b] Hab Hba; simpl in *;
    try reflexivity; try discriminate.
  apply orb_false_iff in Hab. destruct Hab as [H1 H2].
  apply orb_false_iff in Hba. destruct Hba as [H3 H4].
  apply N.ltb_ge in H1, H3.
  assert (x = y) by lia. subst y.
  rewrite N.eqb_refl in H2, H4. simpl in H2, H4.
  f_equal. now apply IH.
Qed.

Lemma parts_ltb_trans (a b c : list str) :
  parts_ltb a b = true -> parts_ltb b c = true -> parts_ltb a c = true.
Proof.
  revert b c. induction a as [|x a IH]; intros [|y b] [|z c] Hab Hbc;
    simpl in *; try reflexivity; try discriminate.
  apply orb_true_iff in Hab. apply orb_true_iff in Hbc.
  apply orb_true_iff.
  destruct Hab as [Hab|Hab], Hbc as [Hbc|Hbc].
  - left. now apply (str_ltb_trans x y z).
  - apply andb_true_iff in Hbc. destruct Hbc as [E _].
    apply str_eqb_eq in E. subst z. now left.
  - apply andb_true_iff in Hab. destruct Hab as [E _].
    apply str_eqb_eq in E. subst y. now left.
  - apply andb_true_iff in Hab. destruct Hab as [E1 Hab].
    apply andb_true_iff in Hbc. destruct Hbc as [E2 Hbc].
    apply str_eqb_eq in E1. apply str_eqb_eq in E2. subst y z. right.
    rewrite str_eqb_refl. simpl. now apply (IH b c).
Qed.

Lemma parts_ltb_total (a b : list str) :
  parts_ltb a b = false -> parts_ltb b a = false -> a = b.
Proof.
  revert b. induction a as [|x a IH]; intros [|y b] Hab Hba; simpl in *;
    try reflexivity; try discriminate.
  apply orb_false_iff in Hab. destruct Hab as [H1 H2].
  apply orb_false_iff in Hba. destruct Hba as [H3 H4].
  assert (x = y) by (now apply str_ltb_total). subst y.
  rewrite str_eqb_refl in H2, H4. simpl in H2, H4.
  f_equal. now apply IH.
Qed.

Lemma path_parts_inj (p q : path) : path_parts p = path_parts q -> p = q.
Proof.
  destruct p as [d n], q as [d' n']. unfold path_parts. simpl. intros H.
  apply app_inj_tail in H. destruct H as [-> ->]. reflexivity.
Qed.

Lemma path_le_antisym (p q : path) : path_le p q -> path_le q p -> p = q.
Proof.
  unfold path_le, path_ltb. intros H1 H2.
  apply path_parts_inj. now apply parts_ltb_total.
Qed.

Lemma path_le_trans (p q r : path) : path_le p q -> path_le q r -> path_le p r.
Proof.
  unfold path_le, path_ltb. intros Hpq Hqr.
  destruct (parts_ltb (path_parts r) (path_parts p)) eqn:Hrp; [|reflexivity].
  destruct (parts_ltb (path_parts p) (path_parts q)) eqn:Hlt.
  - rewrite (parts_ltb_trans _ _ _ Hrp Hlt) in Hqr. discriminate.
  - rewrite (parts_ltb_total _ _ Hlt Hpq) in Hrp. congruence.
Qed.

Lemma sorted_strongly (l : list path) : StronglySorted path_le (sorted l).
Proof.
  apply Sorted_StronglySorted; [|apply sorted_is_ordered].
  intros p q r. apply path_le_trans.
Qed.

(** Two ordered lists with the same elements are the same list. *)
Lemma ordered_unique (l1 : list path) :
  forall l2,
    StronglySorted path_le l1 -> StronglySorted path_le l2 ->
    Permutation l1 l2 -> l1 = l2.
Proof.
  induction l1 as [|a l1 IH]; intros l2 H1 H2 Hp.
  - apply Permutation_nil in Hp. now subst.
  - destruct l2 as [|b l2];
      [apply Permutation_sym, Permutation_nil in Hp; discriminate|].
    inversion H1 as [|? ? Hs1 Ha]; subst.
    inversion H2 as [|? ? Hs2 Hb]; subst.
    assert (Hab : a = b).
    { assert (Ina : In a (b :: l2))
        by (apply (Permutation_in _ Hp); now left).
      assert (Inb : In b (a :: l1))
        by (apply (Permutation_in _ (Permutation_sym Hp)); now left).
      destruct Ina as [E|Ina]; [now symmetry|].
      destruct Inb as [E|Inb]; [exact E|].
      apply path_le_antisym.
      - exact (proj1 (Forall_forall _ _) Ha b Inb).
      - exact (proj1 (Forall_forall _ _) Hb a Ina). }
    subst b. f_equal. apply IH; try assumption.
    now apply Permutation_cons_inv in Hp.
Qed.

Lemma filter_permutation (A : Type) (f : A -> bool) (l l' : list A) :
  Permutation l l' -> Permutation (filter f l) (filter f l').
Proof.
  induction 1 as [|x l l' H IH|x y l|l l' l'' H1 IH1 H2 IH2]; simpl.
  - constructor.
  - destruct (f x); [now constructor|exact IH].
  - destruct (f x), (f y); try reflexivity. apply perm_swap.
  - now transitivity (filter f l').
Qed.

(** X23.  Walker, listing order: in whatever order the directory scan
    lists the files of the vault, the walker returns the same list and the
    same counters. *)
Theorem walker_ignores_the_listing_order
    (config : Config) (fs fs' : store) (c : stats) :
  Permutation fs fs' ->
  _find_markdown_files config fs c = _find_markdown_files config fs' c.
Proof.
  intros Hp. rewrite !find_markdown_files_spec. f_equal.
  - apply ordered_unique; try apply sorted_strongly.
    rewrite !sorted_perm. unfold candidate_paths.
    now apply Permutation_map, filter_permutation.
  - f_equal. now apply Permutation_length, filter_permutation.
Qed.

End ListingOrder.

(** Witness of X23: the vault of the integration test, listed backwards. *)
Lemma walker_ignores_the_listing_order_witness :
  _find_markdown_files plain_config test_vault no_stats
  = _find_markdown_files plain_config (rev test_vault) no_stats.
Proof.
  apply (walker_ignores_the_listing_order plain_config test_vault
           (rev test_vault) no_stats).
  apply Permutation_rev.
Defined.
